(** * CGPA-Calculator: grade computation and aggregation

    A shallow embedding of the calculation logic of the calculator
    (js/utils.js [getGradePoint], js/calculator.js [calculateSubject] and
    [updatePrediction], js/state.js, js/main.js [calculateOverallSGPA] and
    [calculateCGPA]) together with the properties its specification states.

    Modelling conventions.
    - A JavaScript Number is a [num]: an exact rational, one of the two
      infinities, or NaN.  Arithmetic is exact: the rounding, overflow and
      underflow of IEEE-754 doubles and the sign of zero are not modelled.
    - The page is a finite map from the id of an input element to its
      [value] string; [document.getElementById] is the map lookup, and
      reading [.value] of a missing element raises [TypeError] as in
      JavaScript.  The containers the functions write into (result<id>,
      prediction-<id>, outputSection, cgpaOutputSection) are taken to exist;
      what is written into them is the value the embedded function returns.
    - The subject catalog (js/data/) is static configuration: its numbers
      are numeric literals, hence finite rationals, and subject ids are
      integers. *)

From Stdlib Require Import Ascii String QArith Qround Lqa DecimalString.
From stdpp Require Import gmap strings list fin_maps.

Local Open Scope Z_scope.

(** ** JavaScript numbers *)

Module Num.

Inductive num : Type :=
| Fin (q : Q)
| PInf
| NInf
| NaN.

Definition ofZ (z : Z) : num := Fin (inject_Z z).

Definition isNaN (a : num) : bool :=
  match a with NaN => true | _ => false end.

(** Equality of values: rationals are compared by [Qeq]. *)
Definition eqv (a b : num) : Prop :=
  match a, b with
  | Fin x, Fin y => (x == y)%Q
  | PInf, PInf | NInf, NInf | NaN, NaN => True
  | _, _ => False
  end.

(** The comparison underlying [<], [<=], [>], [>=] and [===]: NaN is
    unordered. *)
Definition cmp (a b : num) : option comparison :=
  match a, b with
  | NaN, _ | _, NaN => None
  | Fin x, Fin y => Some (x ?= y)%Q
  | PInf, PInf | NInf, NInf => Some Eq
  | NInf, _ | _, PInf => Some Lt
  | PInf, _ | _, NInf => Some Gt
  end.

Definition ltb (a b : num) : bool :=
  match cmp a b with Some Lt => true | _ => false end.
Definition gtb (a b : num) : bool := ltb b a.
Definition leb (a b : num) : bool :=
  match cmp a b with Some Lt | Some Eq => true | _ => false end.
Definition geb (a b : num) : bool := leb b a.
Definition eqb (a b : num) : bool :=
  match cmp a b with Some Eq => true | _ => false end.

Definition neg (a : num) : num :=
  match a with
  | Fin x => Fin (- x)
  | PInf => NInf
  | NInf => PInf
  | NaN => NaN
  end.

Definition add (a b : num) : num :=
  match a, b with
  | NaN, _ | _, NaN => NaN
  | Fin x, Fin y => Fin (x + y)
  | PInf, NInf | NInf, PInf => NaN
  | PInf, _ | _, PInf => PInf
  | NInf, _ | _, NInf => NInf
  end.

Definition sub (a b : num) : num := add a (neg b).

(** An infinity of the sign of [x], NaN when [x] is zero. *)
Definition signedInf (x : Q) (positive : bool) : num :=
  match (x ?= 0)%Q with
  | Eq => NaN
  | Gt => if positive then PInf else NInf
  | Lt => if positive then NInf else PInf
  end.

Definition mul (a b : num) : num :=
  match a, b with
  | NaN, _ | _, NaN => NaN
  | Fin x, Fin y => Fin (x * y)
  | Fin x, PInf | PInf, Fin x => signedInf x true
  | Fin x, NInf | NInf, Fin x => signedInf x false
  | PInf, PInf | NInf, NInf => PInf
  | PInf, NInf | NInf, PInf => NInf
  end.

(** Division; a zero divisor is taken as +0. *)
Definition div (a b : num) : num :=
  match a, b with
  | NaN, _ | _, NaN => NaN
  | Fin x, Fin y => if Qeq_bool y 0 then signedInf x true else Fin (x / y)
  | Fin _, _ => Fin 0
  | PInf, Fin y => if Qle_bool 0 y then PInf else NInf
  | NInf, Fin y => if Qle_bool 0 y then NInf else PInf
  | _, _ => NaN
  end.

(** [Math.ceil] *)
Definition ceil (a : num) : num :=
  match a with
  | Fin x => ofZ (Qceiling x)
  | _ => a
  end.

End Num.
Export Num.

Declare Scope num_scope.
Delimit Scope num_scope with num.
Bind Scope num_scope with num.
Infix "+" := add : num_scope.
Infix "-" := sub : num_scope.
Infix "*" := mul : num_scope.
Infix "/" := div : num_scope.
Infix "<?" := ltb : num_scope.
Infix ">?" := gtb : num_scope.
Infix "<=?" := leb : num_scope.
Infix ">=?" := geb : num_scope.
Infix "=?" := eqb : num_scope.
Infix "==" := eqv (at level 70, no associativity) : num_scope.
Coercion ofZ : Z >-> num.

(** ** [parseFloat]

    The prefix of the trimmed string that is a StrDecimalLiteral
    (ECMA-262, 19.2.4): an optional sign, then [Infinity] or decimal digits
    with an optional fraction and an optional exponent.  White space is the
    ASCII part of StrWhiteSpaceChar. *)

Definition isWhiteSpace (c : ascii) : bool :=
  let n := nat_of_ascii c in ((9 <=? n) && (n <=? 13) || (n =? 32))%nat.

Definition isDigit (c : ascii) : bool :=
  let n := nat_of_ascii c in ((48 <=? n) && (n <=? 57))%nat.

Definition digitValue (c : ascii) : Z := Z.of_nat (nat_of_ascii c) - 48.

Fixpoint trimStart (s : string) : string :=
  match s with
  | String c r => if isWhiteSpace c then trimStart r else s
  | EmptyString => s
  end.

(** The longest run of digits at the head of [s]: its value on top of
    [acc], its length on top of [n], and the rest of the string. *)
Fixpoint decimalDigits (s : string) (acc : Z) (n : nat) : Z * nat * string :=
  match s with
  | String c r =>
      if isDigit c then decimalDigits r (10 * acc + digitValue c) (S n)
      else (acc, n, s)
  | EmptyString => (acc, n, s)
  end.

(** ExponentPart: [e] or [E], an optional sign and at least one digit;
    0 when the string does not start with one. *)
Definition exponentPart (s : string) : Z :=
  match s with
  | String c r =>
      if (c =? "e")%char || (c =? "E")%char then
        let '(negative, r') :=
          match r with
          | String "-" r' => (true, r')
          | String "+" r' => (false, r')
          | _ => (false, r)
          end in
        let '(e, n, _) := decimalDigits r' 0 0 in
        match n with
        | O => 0
        | _ => if negative then - e else e
        end
      else 0
  | EmptyString => 0
  end.

Definition strUnsignedDecimalLiteral (s : string) : num :=
  if String.prefix "Infinity" s then PInf
  else
    let '(ip, ni, r1) := decimalDigits s 0 0 in
    let '(fp, nf, r2) :=
      match r1 with
      | String "." r => decimalDigits r 0 0
      | _ => (0, O, r1)
      end in
    match ni, nf with
    | O, O => NaN
    | _, _ =>
        let mantissa := (inject_Z (ip * 10 ^ Z.of_nat nf + fp)
                         / inject_Z (10 ^ Z.of_nat nf))%Q in
        Fin (mantissa * Qpower (inject_Z 10) (exponentPart r2))
    end.

Definition parseFloat (s : string) : num :=
  match trimStart s with
  | String "-" r => neg (strUnsignedDecimalLiteral r)
  | String "+" r => strUnsignedDecimalLiteral r
  | t => strUnsignedDecimalLiteral t
  end.

(** ** js/utils.js *)

Definition getGradePoint (percentage : num) : Z :=
  if (percentage >=? 80)%num then 10
  else if (percentage >=? 70)%num then 9
  else if (percentage >=? 60)%num then 8
  else if (percentage >=? 55)%num then 7
  else if (percentage >=? 50)%num then 6
  else if (percentage >=? 45)%num then 5
  else if (percentage >=? 40)%num then 4
  else 0.

(** ** The subject catalog (schema of js/data/) *)

Module Field.
Record t : Type := mk {
  name : string;
  label : string;
  max : Q;
}.
End Field.

(** [hasOptions] and [options] only change the name shown in the result
    tables and are left out. *)
Module Subject.
Record t : Type := mk {
  id : Z;
  name : string;
  credits : Q;
  fields : list Field.t;
  defaultHighest : Q;
}.
End Subject.

(** ** js/state.js *)

Record State : Type := mkState {
  selectedBranch : option string;
  selectedSemester : option Z;
  selectedBatch : option string;
  currentSubjects : list Subject.t;
  gradePoints : gmap Z Z;
}.

Definition resetState : State :=
  {| selectedBranch := None; selectedSemester := None; selectedBatch := None;
     currentSubjects := []; gradePoints := ∅ |}.

Definition setCurrentSubjects (subjects : list Subject.t) (st : State) : State :=
  {| selectedBranch := selectedBranch st;
     selectedSemester := selectedSemester st;
     selectedBatch := selectedBatch st;
     currentSubjects := subjects;
     gradePoints := gradePoints st |}.

Definition updateGradePoint (subjectId gp : Z) (st : State) : State :=
  {| selectedBranch := selectedBranch st;
     selectedSemester := selectedSemester st;
     selectedBatch := selectedBatch st;
     currentSubjects := currentSubjects st;
     gradePoints := <[subjectId := gp]> (gradePoints st) |}.

(** ** The page *)

Abbreviation Document := (gmap string string).

(** How a function call ends: with a value, or with the TypeError of
    reading [.value] of [null]. *)
Inductive outcome (A : Type) : Type :=
| Returns (a : A)
| TypeError.
Arguments Returns {A} a.
Arguments TypeError {A}.

(** Number-to-string conversion of an integer, as string concatenation
    does it. *)
Definition numberToString (z : Z) : string :=
  NilZero.string_of_int (Z.to_int z).

Definition fieldInputId (subjectId : Z) (fieldName : string) : string :=
  "s" +:+ numberToString subjectId +:+ "-" +:+ fieldName.

Definition highestInputId (subjectId : Z) : string :=
  "s" +:+ numberToString subjectId +:+ "-highest".

Definition findSubject (st : State) (subjectId : Z) : option Subject.t :=
  find (fun s => Subject.id s =? subjectId) (currentSubjects st).

(** ** js/calculator.js: [calculateSubject] *)

Inductive SubjectResult : Type :=
| NoSubject
    (** [if (!subject) return;] *)
| IncompleteOrInvalid
    (** "Fill all fields correctly !" *)
| HighestExceedsDefault (defaultHighest : Q)
    (** "Highest marks cannot exceed <defaultHighest> !" *)
| SubjectPointer (total highest percentage : num) (gradePoint : Z).

(** The loop over [subject.fields]: [Some total] when it runs to its end,
    [None] when it leaves with [allFilled = false]. *)
Fixpoint sumFields (doc : Document) (subjectId : Z) (fields : list Field.t)
    (total : num) : outcome (option num) :=
  match fields with
  | [] => Returns (Some total)
  | field :: rest =>
      match doc !! fieldInputId subjectId (Field.name field) with
      | None => TypeError
      | Some value =>
          if (value =? "")%string || isNaN (parseFloat value) then Returns None
          else
            let numValue := parseFloat value in
            if (numValue <? 0)%num || (numValue >? Fin (Field.max field))%num
            then Returns None
            else sumFields doc subjectId rest (total + numValue)%num
      end
  end.

(** The denominator: the entered override unless it is NaN or zero. *)
Definition resolveHighest (value : string) (defaultHighest : Q) : num :=
  let highest := parseFloat value in
  if isNaN highest || (highest =? 0)%num then Fin defaultHighest else highest.

Definition calculateSubject (st : State) (doc : Document) (subjectId : Z)
    : State * outcome SubjectResult :=
  match findSubject st subjectId with
  | None => (st, Returns NoSubject)
  | Some subject =>
      match sumFields doc subjectId (Subject.fields subject) 0 with
      | TypeError => (st, TypeError)
      | Returns None =>
          (updateGradePoint subjectId 0 st, Returns IncompleteOrInvalid)
      | Returns (Some total) =>
          match doc !! highestInputId subjectId with
          | None => (st, TypeError)
          | Some highestValue =>
              let highest :=
                resolveHighest highestValue (Subject.defaultHighest subject) in
              if (highest >? Fin (Subject.defaultHighest subject))%num then
                (updateGradePoint subjectId 0 st,
                 Returns (HighestExceedsDefault (Subject.defaultHighest subject)))
              else
                let percentage := (total / highest * 100)%num in
                let gradePoint := getGradePoint percentage in
                (updateGradePoint subjectId gradePoint st,
                 Returns (SubjectPointer total highest percentage gradePoint))
          end
      end
  end.

(** ** js/calculator.js: [updatePrediction] *)

Inductive Verdict : Type :=
| AlreadySecured
    (** "Already secured N Pointer!" *)
| Need (marks : num) (eseMax : Q)
    (** "Need <marks>/<eseMax> in ESE for N Pt" *)
| NotPossible.
    (** "N Pt not possible" *)

Inductive PredictionResult : Type :=
| Untouched
    (** the function returns before it reaches the prediction element *)
| Cleared
    (** [predictionDiv.innerHTML = ""] *)
| Prediction (for10 for9 : Verdict).

Definition isEse (field : Field.t) : bool := (Field.name field =? "ese")%string.

(** One turn of the [forEach] over [subject.fields]. *)
Definition addNonEse (doc : Document) (subjectId : Z)
    (acc : num * bool) (field : Field.t) : num * bool :=
  let '(currentTotal, anyFieldFilled) := acc in
  if negb (isEse field) then
    match doc !! fieldInputId subjectId (Field.name field) with
    | Some value =>
        if negb (value =? "")%string then
          let val := parseFloat value in
          (if negb (isNaN val) then (currentTotal + val)%num else currentTotal,
           true)
        else acc
    | None => acc
    end
  else acc.

Definition verdict (need : num) (eseMax : Q) : Verdict :=
  if (need <=? Fin eseMax)%num then
    if (need <=? 0)%num then AlreadySecured else Need need eseMax
  else NotPossible.

Definition updatePrediction (st : State) (doc : Document) (subjectId : Z)
    : outcome PredictionResult :=
  match findSubject st subjectId with
  | None => Returns Untouched
  | Some subject =>
      match find isEse (Subject.fields subject) with
      | None => Returns Untouched
      | Some eseField =>
          match doc !! fieldInputId subjectId "ese" with
          | None => TypeError
          | Some eseValue =>
              if negb (eseValue =? "")%string then Returns Cleared
              else
                let '(currentTotal, anyFieldFilled) :=
                  fold_left (addNonEse doc subjectId) (Subject.fields subject)
                            (ofZ 0, false) in
                if negb anyFieldFilled then Returns Cleared
                else
                  match doc !! highestInputId subjectId with
                  | None => TypeError
                  | Some highestValue =>
                      let highest :=
                        resolveHighest highestValue
                                       (Subject.defaultHighest subject) in
                      let requiredFor10 := (Fin (8 # 10) * highest)%num in
                      let requiredFor9 := (Fin (7 # 10) * highest)%num in
                      let needFor10 := ceil (requiredFor10 - currentTotal) in
                      let needFor9 := ceil (requiredFor9 - currentTotal) in
                      let eseMax := Field.max eseField in
                      Returns (Prediction (verdict needFor10 eseMax)
                                          (verdict needFor9 eseMax))
                  end
          end
      end
  end.

(** ** js/main.js: [calculateOverallSGPA] *)

Inductive SgpaResult : Type :=
| EnterMarksCorrectly
    (** "Please enter marks for all subjects correctly!" *)
| SGPA (sgpa totalCreditPoints totalCredits : num).

(** The inner loop of the input check: [false] when it breaks on a field. *)
Fixpoint fieldsValid (doc : Document) (subjectId : Z) (fields : list Field.t)
    : outcome bool :=
  match fields with
  | [] => Returns true
  | field :: rest =>
      match doc !! fieldInputId subjectId (Field.name field) with
      | None => TypeError
      | Some value =>
          let val := parseFloat value in
          if isNaN val || (value =? "")%string || (val <? 0)%num
             || (val >? Fin (Field.max field))%num
          then Returns false
          else fieldsValid doc subjectId rest
      end
  end.

(** The outer loop: the [break] leaves the inner loop only, so every
    subject is visited. *)
Fixpoint subjectsValid (doc : Document) (subjects : list Subject.t)
    (allValid : bool) : outcome bool :=
  match subjects with
  | [] => Returns allValid
  | subject :: rest =>
      match fieldsValid doc (Subject.id subject) (Subject.fields subject) with
      | TypeError => TypeError
      | Returns ok => subjectsValid doc rest (allValid && ok)
      end
  end.

(** [currentSubjects.forEach((sub) => calculateSubject(sub.id))] *)
Fixpoint recalculate (st : State) (doc : Document) (subjects : list Subject.t)
    : State * outcome unit :=
  match subjects with
  | [] => (st, Returns ())
  | sub :: rest =>
      match calculateSubject st doc (Subject.id sub) with
      | (st', TypeError) => (st', TypeError)
      | (st', Returns _) => recalculate st' doc rest
      end
  end.

(** [freshState.gradePoints[subject.id] || 0] *)
Definition recordedGradePoint (gps : gmap Z Z) (subject : Subject.t) : Z :=
  default 0 (gps !! Subject.id subject).

(** One turn of the [forEach] that accumulates [totalCreditPoints] and
    [totalCredits]. *)
Definition addSubject (gps : gmap Z Z) (acc : num * num) (subject : Subject.t)
    : num * num :=
  let '(totalCreditPoints, totalCredits) := acc in
  let gp := recordedGradePoint gps subject in
  ((totalCreditPoints + ofZ gp * Fin (Subject.credits subject))%num,
   (totalCredits + Fin (Subject.credits subject))%num).

(** Lines 161-178 without the recalculation: the sums over the recorded
    grade points and their quotient. *)
Definition aggregateSGPA (subjects : list Subject.t) (gps : gmap Z Z)
    : SgpaResult :=
  let '(totalCreditPoints, totalCredits) :=
    fold_left (addSubject gps) subjects (ofZ 0, ofZ 0) in
  SGPA (totalCreditPoints / totalCredits)%num totalCreditPoints totalCredits.

Definition calculateOverallSGPA (st : State) (doc : Document)
    : State * outcome SgpaResult :=
  match subjectsValid doc (currentSubjects st) true with
  | TypeError => (st, TypeError)
  | Returns false => (st, Returns EnterMarksCorrectly)
  | Returns true =>
      match recalculate st doc (currentSubjects st) with
      | (st', TypeError) => (st', TypeError)
      | (st', Returns _) =>
          (st', Returns (aggregateSGPA (currentSubjects st) (gradePoints st')))
      end
  end.

(** ** js/main.js: [calculateCGPA] *)

Inductive CgpaResult : Type :=
| SGPAOutOfRange (sem : Z)
    (** "SGPA for Semester <sem> cannot exceed 10!" *)
| NoValidSemesters
    (** "Please enter data for at least one semester!" *)
| CGPA (cgpa totalCreditPoints totalCredits : num) (semestersEntered : nat).

Definition sgpaInputId (sem : Z) : string := "sgpa" +:+ numberToString sem.
Definition creditsInputId (sem : Z) : string := "credits" +:+ numberToString sem.

(** The test both loops of [calculateCGPA] apply to a semester row. *)
Definition rowEntered (sgpaValue creditsValue : num) : bool :=
  negb (isNaN sgpaValue) && negb (isNaN creditsValue)
  && (sgpaValue >? 0)%num && (creditsValue >? 0)%num.

(** The first loop, over the semesters still to visit: [inl sem] when it
    returns from inside the loop, [inr] the three counters at its end. *)
Fixpoint sumSemesters (doc : Document) (sems : list Z)
    (totalCreditPoints totalCredits : num) (semestersEntered : nat)
    : Z + (num * num * nat) :=
  match sems with
  | [] => inr (totalCreditPoints, totalCredits, semestersEntered)
  | sem :: rest =>
      match doc !! sgpaInputId sem, doc !! creditsInputId sem with
      | Some sgpaText, Some creditsText =>
          let sgpaValue := parseFloat sgpaText in
          let creditsValue := parseFloat creditsText in
          if rowEntered sgpaValue creditsValue then
            if (sgpaValue >? 10)%num then inl sem
            else
              sumSemesters doc rest
                (totalCreditPoints + sgpaValue * creditsValue)%num
                (totalCredits + creditsValue)%num
                (S semestersEntered)
          else sumSemesters doc rest totalCreditPoints totalCredits
                            semestersEntered
      | _, _ => sumSemesters doc rest totalCreditPoints totalCredits
                             semestersEntered
      end
  end.

(** The second loop builds the rows of the breakdown table; it skips a
    semester without an sgpa input and reads [creditsInput.value]
    unguarded. *)
Fixpoint renderSemesters (doc : Document) (sems : list Z) : outcome unit :=
  match sems with
  | [] => Returns ()
  | s :: rest =>
      match doc !! sgpaInputId s with
      | None => renderSemesters doc rest
      | Some _ =>
          match doc !! creditsInputId s with
          | None => TypeError
          | Some _ => renderSemesters doc rest
          end
      end
  end.

(** [for (let sem = 1; sem <= 8; sem++)] *)
Definition semesters : list Z := seqZ 1 8.

Definition calculateCGPA (doc : Document) : outcome CgpaResult :=
  match sumSemesters doc semesters 0 0 0 with
  | inl sem => Returns (SGPAOutOfRange sem)
  | inr (totalCreditPoints, totalCredits, semestersEntered) =>
      if (semestersEntered =? 0)%nat then Returns NoValidSemesters
      else
        let cgpa := (totalCreditPoints / totalCredits)%num in
        match renderSemesters doc semesters with
        | TypeError => TypeError
        | Returns _ =>
            Returns (CGPA cgpa totalCreditPoints totalCredits semestersEntered)
        end
  end.

(** ** js/ui.js: [createSubjectCards] *)

(** The inputs of one subject card, in document order, each with its
    initial (empty) value: the elective select, one input per field and
    the "highest" input.  [hasOptions] and [options] are not part of
    [Subject.t]; whether the card has the elective select
    ([subject.hasOptions && subject.options]) is the parameter
    [electiveOffered]. *)
Definition electiveInputId (subjectId : Z) : string :=
  "s" +:+ numberToString subjectId +:+ "-elective".

Definition createOneSubjectCard (electiveOffered : Subject.t -> bool)
    (subject : Subject.t) : list (string * string) :=
  (if electiveOffered subject
   then [(electiveInputId (Subject.id subject), "")] else [])
  ++ map (fun field =>
            (fieldInputId (Subject.id subject) (Field.name field), ""))
         (Subject.fields subject)
  ++ [(highestInputId (Subject.id subject), "")].

Definition createSubjectCards (electiveOffered : Subject.t -> bool)
    (subjects : list Subject.t) : list (string * string) :=
  flat_map (createOneSubjectCard electiveOffered) subjects.

(** ** js/data-config.js: [getSubjects] *)

(** The subject arrays of js/data/batch-2025-2029.js and
    js/data/batch-2024-2028.js, which are not among the sources: they are
    the fields of a parameter. *)
Record Catalog : Type := mkCatalog {
  semester1Subjects : list Subject.t;
  semester2CommonSubjects : list Subject.t;
  semester2Subject_ComputerAllied : Subject.t;
  semester2Subject_ElectronicsAllied : Subject.t;
  semester2Subjects_MechRAI : list Subject.t;
  semester3Subjects_COMP_2024 : list Subject.t;
  semester3Subjects_RAI_2024 : list Subject.t;
  semester3Subjects_AIDS_2024 : list Subject.t;
  semester3Subjects_CSBS_2024 : list Subject.t;
  semester3Subjects_IT_2024 : list Subject.t;
  semester4Subjects_COMP_2024 : list Subject.t;
  semester4Subjects_AIDS_2024 : list Subject.t;
  semester4Subjects_CSBS_2024 : list Subject.t;
  semester4Subjects_IT_2024 : list Subject.t;
}.

(** [array.includes(branchId)] *)
Definition includes (array : list string) (branchId : string) : bool :=
  existsb (String.eqb branchId) array.

Definition computerAlliedBranches : list string :=
  ["aids"; "comp"; "cce"; "csbs"; "it"].
Definition electronicsAlliedBranches : list string := ["ece"; "extc"; "vlsi"].
Definition mechRAIBranches : list string := ["mech"; "rai"].

(** [None] is the [null] of the source. *)
Definition getSubjects (data : Catalog) (branchId : string) (semesterId : Z)
    (batchId : string) : option (list Subject.t) :=
  let batch2024 :=
    if (batchId =? "2024-2028")%string then
      if semesterId =? 3 then
        if (branchId =? "comp")%string then Some (semester3Subjects_COMP_2024 data)
        else if (branchId =? "rai")%string then Some (semester3Subjects_RAI_2024 data)
        else if (branchId =? "aids")%string then Some (semester3Subjects_AIDS_2024 data)
        else if (branchId =? "csbs")%string then Some (semester3Subjects_CSBS_2024 data)
        else if (branchId =? "it")%string then Some (semester3Subjects_IT_2024 data)
        else None
      else if semesterId =? 4 then
        if (branchId =? "comp")%string then Some (semester4Subjects_COMP_2024 data)
        else if (branchId =? "aids")%string then Some (semester4Subjects_AIDS_2024 data)
        else if (branchId =? "csbs")%string then Some (semester4Subjects_CSBS_2024 data)
        else if (branchId =? "it")%string then Some (semester4Subjects_IT_2024 data)
        else None
      else None
    else None in
  if (batchId =? "2025-2029")%string then
    if semesterId =? 1 then Some (semester1Subjects data)
    else if semesterId =? 2 then
      if includes computerAlliedBranches branchId then
        Some (semester2CommonSubjects data
              ++ [semester2Subject_ComputerAllied data])
      else if includes electronicsAlliedBranches branchId then
        Some (semester2CommonSubjects data
              ++ [semester2Subject_ElectronicsAllied data])
      else if includes mechRAIBranches branchId then
        Some (semester2CommonSubjects data ++ semester2Subjects_MechRAI data)
      else None
    else batch2024
  else batch2024.

(** ** js/print.js: [printResult] *)

(** The numbers of a row of the printed table; the subject name and the
    per-component text are left out. *)
Module PrintRow.
Record t : Type := mk {
  totalMarks : num;
  highest : num;
  credits : Q;
  gradePoint : Z;
  creditPoints : num;
}.
End PrintRow.

Record PrintReport : Type := mkPrintReport {
  printRows : list PrintRow.t;
  printTotalCredits : num;
  printSgpa : num;
  printTotalCreditPoints : num;
}.

(** [x || 0] on a number: 0 for NaN and for zero. *)
Definition orZero (x : num) : num :=
  if isNaN x || (x =? 0)%num then ofZ 0 else x.

(** The inner loop over [subject.fields]:
    [totalMarks += parseFloat(val) || 0], with [val] the empty string
    when the input is missing. *)
Definition printTotalMarks (doc : Document) (subject : Subject.t) : num :=
  fold_left
    (fun totalMarks field =>
       let val :=
         match doc !! fieldInputId (Subject.id subject) (Field.name field) with
         | Some value => value
         | None => ""
         end in
       (totalMarks + orZero (parseFloat val))%num)
    (Subject.fields subject) (ofZ 0).

Definition printHighest (doc : Document) (subject : Subject.t) : num :=
  let highest :=
    match doc !! highestInputId (Subject.id subject) with
    | Some value => parseFloat value
    | None => Fin (Subject.defaultHighest subject)
    end in
  if isNaN highest || (highest =? 0)%num
  then Fin (Subject.defaultHighest subject) else highest.

Definition printRow (gps : gmap Z Z) (doc : Document) (subject : Subject.t)
    : PrintRow.t :=
  let gp := default 0 (gps !! Subject.id subject) in
  PrintRow.mk (printTotalMarks doc subject) (printHighest doc subject)
              (Subject.credits subject) gp
              (ofZ gp * Fin (Subject.credits subject))%num.

(** One turn of the outer loop: the two totals and the rows so far. *)
Definition printSubject (gps : gmap Z Z) (doc : Document)
    (acc : num * num * list PrintRow.t) (subject : Subject.t)
    : num * num * list PrintRow.t :=
  let '(totalCreditPoints, totalCredits, rows) := acc in
  let row := printRow gps doc subject in
  ((totalCreditPoints + PrintRow.creditPoints row)%num,
   (totalCredits + Fin (Subject.credits subject))%num,
   rows ++ [row]).

Definition printResult (st : State) (doc : Document) : PrintReport :=
  let '(totalCreditPoints, totalCredits, rows) :=
    fold_left (printSubject (gradePoints st) doc) (currentSubjects st)
              (ofZ 0, ofZ 0, []) in
  let sgpa :=
    if (totalCredits >? 0)%num then (totalCreditPoints / totalCredits)%num
    else ofZ 0 in
  mkPrintReport rows totalCredits sgpa totalCreditPoints.

(** ** js/print.js: [printOverallResult] *)

Inductive PrintOverall : Type :=
| CalculateFirst
    (** alert("Please calculate the CGPA first!") *)
| PrintedCGPA (rows : list (Z * num)) (cgpa : num).

(** The loop over the semesters: the totals, the count and the printed
    rows (semester, sgpa). *)
Fixpoint printSemesters (doc : Document) (sems : list Z)
    (totalCreditPoints totalCredits : num) (semestersEntered : nat)
    (rows : list (Z * num)) : num * num * nat * list (Z * num) :=
  match sems with
  | [] => (totalCreditPoints, totalCredits, semestersEntered, rows)
  | sem :: rest =>
      match doc !! sgpaInputId sem, doc !! creditsInputId sem with
      | Some sgpaText, Some creditsText =>
          let sgpaValue := parseFloat sgpaText in
          let creditsValue := parseFloat creditsText in
          if rowEntered sgpaValue creditsValue then
            printSemesters doc rest
              (totalCreditPoints + sgpaValue * creditsValue)%num
              (totalCredits + creditsValue)%num
              (S semestersEntered)
              (rows ++ [(sem, sgpaValue)])
          else printSemesters doc rest totalCreditPoints totalCredits
                              semestersEntered rows
      | _, _ => printSemesters doc rest totalCreditPoints totalCredits
                               semestersEntered rows
      end
  end.

Definition printOverallResult (doc : Document) : PrintOverall :=
  let '(totalCreditPoints, totalCredits, semestersEntered, rows) :=
    printSemesters doc semesters 0 0 0 [] in
  if (semestersEntered =? 0)%nat then CalculateFirst
  else PrintedCGPA rows (totalCreditPoints / totalCredits)%num.

(** ** js/main.js: [changeSelection] *)

(** [if (s) s.value = ""; if (c) c.value = "";] *)
Definition clearSemester (doc : Document) (sem : Z) : Document :=
  let doc1 :=
    match doc !! sgpaInputId sem with
    | Some _ => <[sgpaInputId sem := ""]> doc
    | None => doc
    end in
  match doc1 !! creditsInputId sem with
  | Some _ => <[creditsInputId sem := ""]> doc1
  | None => doc1
  end.

(** [subjectsGrid.innerHTML = ""]: the cards of the current subjects leave
    the page with their inputs. *)
Definition removeSubjectCards (electiveOffered : Subject.t -> bool)
    (subjects : list Subject.t) (doc : Document) : Document :=
  fold_left (fun d input => delete input.1 d)
            (createSubjectCards electiveOffered subjects) doc.

(** The state, the page and how the call ends.  The three selects are
    written without a guard. *)
Definition changeSelection (electiveOffered : Subject.t -> bool)
    (st : State) (doc : Document) : State * Document * outcome unit :=
  let st' :=
    {| selectedBranch := None; selectedSemester := None;
       selectedBatch := None; currentSubjects := []; gradePoints := ∅ |} in
  let doc1 := removeSubjectCards electiveOffered (currentSubjects st) doc in
  let doc2 := fold_left clearSemester semesters doc1 in
  match doc2 !! "batchSelect" with
  | None => (st', doc2, TypeError)
  | Some _ =>
      let doc3 := <["batchSelect" := ""]> doc2 in
      match doc3 !! "branchSelect" with
      | None => (st', doc3, TypeError)
      | Some _ =>
          let doc4 := <["branchSelect" := ""]> doc3 in
          match doc4 !! "semesterSelect" with
          | None => (st', doc4, TypeError)
          | Some _ =>
              (st', <["semesterSelect" := ""]> doc4, Returns ())
          end
      end
  end.

(** * The vocabulary of the specification *)

(** ** Order and sums of numbers *)

Definition le (a b : num) : Prop := (a <=? b)%num = true.
Definition lt (a b : num) : Prop := (a <? b)%num = true.
Infix "<=" := le : num_scope.
Infix "<" := lt : num_scope.
Notation "a <= b <= c" := (le a b /\ le b c) : num_scope.
Notation "a <= b < c" := (le a b /\ lt b c) : num_scope.
Notation "a < b <= c" := (lt a b /\ le b c) : num_scope.

(** Σ over a list of numbers. *)
Definition sumNum (l : list num) : num := fold_right add (ofZ 0) l.

(** ** Entered values *)

(** What the user typed for a field; a missing input reads as empty. *)
Definition enteredText (doc : Document) (subjectId : Z) (field : Field.t)
    : string :=
  default "" (doc !! fieldInputId subjectId (Field.name field)).

Definition entered (doc : Document) (subjectId : Z) (field : Field.t) : num :=
  parseFloat (enteredText doc subjectId field).

Definition present (doc : Document) (subjectId : Z) (field : Field.t) : Prop :=
  is_Some (doc !! fieldInputId subjectId (Field.name field)).

(** The entered value is present, numeric, non-negative and at most the
    field's max. *)
Definition validEntry (doc : Document) (subjectId : Z) (field : Field.t)
    : Prop :=
  present doc subjectId field /\
  enteredText doc subjectId field <> "" /\
  isNaN (entered doc subjectId field) = false /\
  (0 <= entered doc subjectId field <= Fin (Field.max field))%num.

(** The entered value is missing, non-numeric, negative or above the
    field's max. *)
Definition invalidEntry (doc : Document) (subjectId : Z) (field : Field.t)
    : Prop :=
  enteredText doc subjectId field = "" \/
  isNaN (entered doc subjectId field) = true \/
  (entered doc subjectId field < 0)%num \/
  (Fin (Field.max field) < entered doc subjectId field)%num.

(** ** Aggregation *)

(** Σ over a list of rationals. *)
Definition sumQ (l : list Q) : Q := fold_right Qplus 0%Q l.

(** gradePoint·credits of a subject, with the recorded grade point. *)
Definition creditPoints (gps : gmap Z Z) (subject : Subject.t) : Q :=
  (inject_Z (recordedGradePoint gps subject) * Subject.credits subject)%Q.

(** A semester row of the CGPA form: both inputs exist; the numbers are
    what [parseFloat] makes of their values. *)
Module Row.
Record t : Type := mk {
  sem : Z;
  sgpa : num;
  credits : num;
}.
End Row.

Definition semesterRow (doc : Document) (sem : Z) : option Row.t :=
  match doc !! sgpaInputId sem, doc !! creditsInputId sem with
  | Some sgpaText, Some creditsText =>
      Some (Row.mk sem (parseFloat sgpaText) (parseFloat creditsText))
  | _, _ => None
  end.

Definition rowsOf (doc : Document) (sems : list Z) : list Row.t :=
  omap (semesterRow doc) sems.

(** The filter of the aggregation: sgpa > 0 and credits > 0. *)
Definition passesFilter (r : Row.t) : bool :=
  (Row.sgpa r >? 0)%num && (Row.credits r >? 0)%num.

Definition filteredRows (doc : Document) (sems : list Z) : list Row.t :=
  List.filter passesFilter (rowsOf doc sems).

Definition exceedsTen (r : Row.t) : bool := (Row.sgpa r >? 10)%num.

Definition rowPoints (r : Row.t) : num := (Row.sgpa r * Row.credits r)%num.

(** Wherever the page has an sgpa input it has the credits input of the
    same semester. *)
Definition pairedInputs (doc : Document) (sems : list Z) : Prop :=
  Forall (fun sem => is_Some (doc !! sgpaInputId sem) ->
                     is_Some (doc !! creditsInputId sem)) sems.

(** A semester row whose sgpa is above 10 and whose credits are above 0. *)
Definition offending (doc : Document) (sem : Z) : Prop :=
  exists r : Row.t,
    semesterRow doc sem = Some r /\
    (10 < Row.sgpa r)%num /\ (0 < Row.credits r)%num.

(** A row within the bounds of the aggregation. *)
Definition inRange (r : Row.t) : Prop :=
  (0 < Row.sgpa r <= 10)%num /\ (0 < Row.credits r)%num.

(** The two sums after [n] rows: rationals with 0 <= points <= 10·credits,
    positive once a row is in, or both infinite. *)
Definition boundedSums (n : nat) (points credits : num) : Prop :=
  (exists a b : Q,
      points = Fin a /\ credits = Fin b /\
      (0 <= a)%Q /\ (a <= 10 * b)%Q /\ (n <> O -> (0 < a)%Q /\ (0 < b)%Q)) \/
  (n <> O /\ points = PInf /\ credits = PInf).

(** ** Prediction *)

(** The fields other than the final exam. *)
Definition nonFinal (fields : list Field.t) : list Field.t :=
  List.filter (fun f => negb (isEse f)) fields.

(** What a field adds to [currentTotal]: the entered number, whatever its
    range; 0 when the input is missing, empty or not a number. *)
Definition numericEntry (doc : Document) (subjectId : Z) (field : Field.t)
    : num :=
  let val := entered doc subjectId field in
  if isNaN val then ofZ 0 else val.

Definition currentTotalOf (doc : Document) (subjectId : Z)
    (fields : list Field.t) : num :=
  sumNum (map (numericEntry doc subjectId) (nonFinal fields)).

Definition enteredb (doc : Document) (subjectId : Z) (field : Field.t) : bool :=
  negb (isEse field) && negb (enteredText doc subjectId field =? "")%string.

(** The verdict in the order of the specification: secured, then the
    needed marks, then not achievable. *)
Definition statedVerdict (need : num) (eseMax : Q) : Verdict :=
  if (need <=? 0)%num then AlreadySecured
  else if (need <=? Fin eseMax)%num then Need need eseMax
  else NotPossible.

(** The prediction as the specification words it: a non-final field
    counts only when its value is valid for the evaluator (present,
    numeric, non-negative, at most its max) and 0 otherwise; the override
    counts only when 0 < override <= defaultHighest, and defaultHighest is
    used otherwise. *)
Definition statedEntry (doc : Document) (subjectId : Z) (field : Field.t)
    : num :=
  let val := entered doc subjectId field in
  if negb (isNaN val) && (0 <=? val)%num && (val <=? Fin (Field.max field))%num
  then val else ofZ 0.

Definition statedHighest (value : string) (defaultHighest : Q) : num :=
  let override := parseFloat value in
  if (0 <? override)%num && (override <=? Fin defaultHighest)%num
  then override else Fin defaultHighest.

Definition statedPrediction (doc : Document) (subject : Subject.t)
    (eseMax : Q) : PredictionResult :=
  let subjectId := Subject.id subject in
  let currentTotal :=
    sumNum (map (statedEntry doc subjectId) (nonFinal (Subject.fields subject))) in
  let highest :=
    statedHighest (default "" (doc !! highestInputId subjectId))
                  (Subject.defaultHighest subject) in
  Prediction
    (statedVerdict (ceil (Fin (8 # 10) * highest - currentTotal)%num) eseMax)
    (statedVerdict (ceil (Fin (7 # 10) * highest - currentTotal)%num) eseMax).

Definition isEmptyPrediction (r : PredictionResult) : Prop :=
  r = Untouched \/ r = Cleared.

(** ** Results and what they record *)

(** The values of the grade scale. *)
Definition gradeValues : list Z := [0; 4; 5; 6; 7; 8; 9; 10].

(** The grade point a result of [calculateSubject] stores, if any. *)
Definition recorded (r : SubjectResult) : option Z :=
  match r with
  | NoSubject => None
  | IncompleteOrInvalid => Some 0
  | HighestExceedsDefault _ => Some 0
  | SubjectPointer _ _ _ gradePoint => Some gradePoint
  end.

(** The state after a call of [calculateSubject] that ended with [r]. *)
Definition afterResult (subjectId : Z) (r : outcome SubjectResult) (st : State)
    : State :=
  match r with
  | Returns x =>
      match recorded x with
      | Some gp => updateGradePoint subjectId gp st
      | None => st
      end
  | TypeError => st
  end.

(** The result [calculateSubject] gives for a subject id. *)
Definition resultOf (st : State) (doc : Document) (subjectId : Z)
    : outcome SubjectResult :=
  (calculateSubject st doc subjectId).2.

(** The input check of [calculateOverallSGPA] accepts the subject. *)
Definition fieldsAccepted (doc : Document) (subject : Subject.t) : bool :=
  match fieldsValid doc (Subject.id subject) (Subject.fields subject) with
  | Returns true => true
  | _ => false
  end.

(** The grade point stored for an id is the one its evaluation gives. *)
Definition gradeRecorded (st : State) (doc : Document) (gps : gmap Z Z)
    (subjectId : Z) : Prop :=
  exists (x : SubjectResult) (gp : Z),
    resultOf st doc subjectId = Returns x /\
    recorded x = Some gp /\
    In gp gradeValues /\
    gps !! subjectId = Some gp.

(** A mark [e] in the final exam reaches what the verdict asks for. *)
Definition secures (v : Verdict) (e : num) : Prop :=
  match v with
  | AlreadySecured => True
  | Need marks _ => (marks <= e)%num
  | NotPossible => False
  end.

(** The page has every input of the cards of the subjects. *)
Definition hasCards (electiveOffered : Subject.t -> bool)
    (subjects : list Subject.t) (doc : Document) : Prop :=
  Forall (fun input : string * string => is_Some (doc !! input.1))
         (createSubjectCards electiveOffered subjects).

(** The row [printOverallResult] prints for a kept semester row. *)
Definition printedRow (r : Row.t) : Z * num := (Row.sem r, Row.sgpa r).

(** The input is not on the page or holds the empty string. *)
Definition blank (doc : Document) (id : string) : Prop :=
  doc !! id = None \/ doc !! id = Some "".

(** ** Pages and subjects of the examples *)

(** A page given by the values of its inputs. *)
Definition page (inputs : list (string * string)) : Document :=
  list_to_map inputs.

(** A subject with an in-semester component out of 20 and an end-semester
    exam out of 80. *)
Definition exampleSubject : Subject.t :=
  Subject.mk 1 "Engineering Mathematics" 4
    [Field.mk "ise" "ISE" 20; Field.mk "ese" "ESE" 80] 100.

Definition exampleState : State :=
  setCurrentSubjects [exampleSubject] resetState.

(** The CGPA form with its eight rows: the sgpa and credits typed for
    semesters 1, 2, ... in order, the remaining rows left blank. *)
Definition cgpaForm (rows : list (string * string)) : Document :=
  page (flat_map
          (fun sem =>
             let '(sgpaText, creditsText) :=
               nth (Z.to_nat (sem - 1)) rows ("", "") in
             [(sgpaInputId sem, sgpaText); (creditsInputId sem, creditsText)])
          semesters).

(** * Properties *)

(** ** Numbers *)

Section NumFacts.

Local Open Scope num_scope.

Lemma eqv_refl (a : num) : a == a.
Proof. destruct a; simpl; auto. reflexivity. Qed.

Lemma eqv_sym (a b : num) : a == b -> b == a.
Proof. destruct a, b; simpl; auto. intros H; now rewrite H. Qed.

Lemma eqv_trans (a b c : num) : a == b -> b == c -> a == c.
Proof.
  destruct a, b, c; simpl; auto; try contradiction.
  intros H1 H2; now rewrite H1.
Qed.

#[export] Instance eqv_equivalence : Equivalence eqv.
Proof.
  split; [exact eqv_refl | exact eqv_sym | exact eqv_trans].
Qed.

Lemma cmp_Fin (x y : Q) : cmp (Fin x) (Fin y) = Some (x ?= y)%Q.
Proof. reflexivity. Qed.

Lemma leb_Fin (x y : Q) : (Fin x <=? Fin y) = true <-> (x <= y)%Q.
Proof.
  unfold leb; rewrite cmp_Fin, Qle_alt.
  destruct (x ?= y)%Q; split; intros; congruence.
Qed.

Lemma ltb_Fin (x y : Q) : (Fin x <? Fin y) = true <-> (x < y)%Q.
Proof.
  unfold ltb; rewrite cmp_Fin, Qlt_alt.
  destruct (x ?= y)%Q; split; intros; congruence.
Qed.

Lemma eqb_Fin (x y : Q) : (Fin x =? Fin y) = true <-> (x == y)%Q.
Proof.
  unfold eqb; rewrite cmp_Fin, Qeq_alt.
  destruct (x ?= y)%Q; split; intros; congruence.
Qed.

Lemma le_Fin (x y : Q) : Fin x <= Fin y <-> (x <= y)%Q.
Proof. apply leb_Fin. Qed.

Lemma lt_Fin (x y : Q) : Fin x < Fin y <-> (x < y)%Q.
Proof. apply ltb_Fin. Qed.

Lemma cmp_flip (a b : num) : cmp b a = CompOpp <$> cmp a b.
Proof.
  destruct a, b; simpl; try reflexivity.
  now rewrite Qcompare_antisym.
Qed.

Lemma le_trans (a b c : num) : a <= b -> b <= c -> a <= c.
Proof.
  unfold le.
  destruct a as [x| | |], b as [y| | |], c as [z| | |];
    try (cbv; congruence); try reflexivity.
  rewrite !leb_Fin. apply Qle_trans.
Qed.

Lemma lt_not_ge (a b : num) : a < b -> (a >=? b) = false.
Proof.
  unfold lt, geb, ltb, leb. rewrite (cmp_flip a b).
  destruct (cmp a b) as [[]|]; simpl; congruence.
Qed.

Lemma le_not_gt (a b : num) : a <= b -> (a >? b) = false.
Proof.
  unfold le, gtb, ltb, leb. rewrite (cmp_flip a b).
  destruct (cmp a b) as [[]|]; simpl; congruence.
Qed.

Lemma le_not_lt (a b : num) : a <= b -> (b <? a) = false.
Proof. apply le_not_gt. Qed.

Lemma gtb_lt (a b : num) : (a >? b) = true <-> b < a.
Proof. reflexivity. Qed.

Lemma geb_le (a b : num) : (a >=? b) = true <-> b <= a.
Proof. reflexivity. Qed.

Lemma isNaN_false_Fin_or_inf (a : num) :
  isNaN a = false -> (exists x, a = Fin x) \/ a = PInf \/ a = NInf.
Proof. destruct a; simpl; intros; eauto; discriminate. Qed.

(** A number between two rationals is a rational. *)
Lemma between_Fin (a : num) (x y : Q) :
  Fin x <= a -> a <= Fin y -> exists q, a = Fin q /\ (x <= q <= y)%Q.
Proof.
  destruct a as [q| | |]; try (cbv; congruence).
  rewrite !le_Fin. eauto.
Qed.

#[export] Instance add_proper : Proper (eqv ==> eqv ==> eqv) add.
Proof.
  intros a a' Ha b b' Hb.
  destruct a, a'; try contradiction; destruct b, b'; try contradiction;
    simpl in *; auto.
  now rewrite Ha, Hb.
Qed.

#[export] Instance neg_proper : Proper (eqv ==> eqv) neg.
Proof.
  intros a a' Ha. destruct a, a'; try contradiction; simpl in *; auto.
  now rewrite Ha.
Qed.

Lemma signedInf_proper (x y : Q) (s : bool) :
  (x == y)%Q -> signedInf x s = signedInf y s.
Proof. intros H. unfold signedInf. now rewrite H. Qed.

#[export] Instance mul_proper : Proper (eqv ==> eqv ==> eqv) mul.
Proof.
  intros a a' Ha b b' Hb.
  destruct a, a'; try contradiction; destruct b, b'; try contradiction;
    simpl in *; auto;
    try (rewrite (signedInf_proper _ _ _ Ha); reflexivity);
    try (rewrite (signedInf_proper _ _ _ Hb); reflexivity).
  now rewrite Ha, Hb.
Qed.

#[export] Instance div_proper : Proper (eqv ==> eqv ==> eqv) div.
Proof.
  intros a a' Ha b b' Hb.
  destruct a, a'; try contradiction; destruct b, b'; try contradiction;
    simpl in *; auto; try reflexivity.
  - rewrite Hb. destruct (Qeq_bool q2 0) eqn:E.
    + rewrite (signedInf_proper _ _ _ Ha). reflexivity.
    + simpl. apply Qeq_bool_neq in E. now rewrite Ha, Hb.
  - rewrite Hb. destruct (Qle_bool 0 q0); reflexivity.
  - rewrite Hb. destruct (Qle_bool 0 q0); reflexivity.
Qed.

Lemma add_0_l (a : num) : ofZ 0 + a == a.
Proof. destruct a; simpl; auto. apply Qplus_0_l. Qed.

Lemma add_0_r (a : num) : a + ofZ 0 == a.
Proof. destruct a; simpl; auto. apply Qplus_0_r. Qed.

Lemma add_assoc (a b c : num) : (a + b) + c == a + (b + c).
Proof.
  destruct a, b, c; simpl; auto. symmetry; apply Qplus_assoc.
Qed.

Lemma fold_left_add (l : list num) (acc : num) :
  fold_left add l acc == acc + sumNum l.
Proof.
  revert acc. induction l as [|x l IH]; intros acc; simpl.
  - symmetry. apply add_0_r.
  - rewrite IH. apply add_assoc.
Qed.

Lemma sumNum_app (l1 l2 : list num) :
  sumNum (l1 ++ l2) == sumNum l1 + sumNum l2.
Proof.
  induction l1 as [|x l1 IH]; simpl.
  - symmetry. apply add_0_l.
  - rewrite IH. symmetry. apply add_assoc.
Qed.

End NumFacts.

(** ** The grade scale *)

Section GradeScale.

Local Open Scope num_scope.

Lemma leb_Fin_false (x y : Q) : (Fin x <=? Fin y) = false <-> (y < x)%Q.
Proof.
  rewrite <- not_true_iff_false, leb_Fin. split.
  - apply Qnot_le_lt.
  - apply Qlt_not_le.
Qed.

(** On a rational, every test of [getGradePoint] is an inequality of
    rationals. *)
Ltac grade_cases q :=
  unfold getGradePoint, geb, ofZ; simpl inject_Z;
  repeat match goal with
  | |- context [Fin ?t <=? Fin q] =>
      let E := fresh "E" in
      destruct (Fin t <=? Fin q) eqn:E;
      [apply leb_Fin in E | apply leb_Fin_false in E]
  end.

Lemma getGradePoint_mono (p q : num) :
  p <= q -> (getGradePoint p <= getGradePoint q)%Z.
Proof.
  intros H.
  destruct p as [x| | |], q as [y| | |]; try (cbv in H; congruence);
    try (cbv; congruence).
  - apply le_Fin in H. grade_cases x; grade_cases y; try lia; exfalso; lra.
  - change (getGradePoint PInf) with 10%Z. grade_cases x; lia.
  - change (getGradePoint NInf) with 0%Z. grade_cases y; lia.
Qed.

(** C1. For every percentage p, getGradePoint(p) is the lookup in the
    threshold table: 10 for p >= 80, 9 for 70 <= p < 80, 8 for
    60 <= p < 70, 7 for 55 <= p < 60, 6 for 50 <= p < 55, 5 for
    45 <= p < 50, 4 for 40 <= p < 45 and 0 for 0 <= p < 40.  Nothing is
    clamped to [0,100]: every p > 100 maps to 10.  The function is total,
    with a value in {0,4,5,6,7,8,9,10} for every number, and monotonic
    non-decreasing.  In particular it maps 80 to 10, 79.999 to 9, 39.999
    to 0 and 40 to 4. *)
Theorem getGradePoint_threshold_table :
  (forall p : num,
      (80 <= p -> getGradePoint p = 10%Z) /\
      (70 <= p < 80 -> getGradePoint p = 9%Z) /\
      (60 <= p < 70 -> getGradePoint p = 8%Z) /\
      (55 <= p < 60 -> getGradePoint p = 7%Z) /\
      (50 <= p < 55 -> getGradePoint p = 6%Z) /\
      (45 <= p < 50 -> getGradePoint p = 5%Z) /\
      (40 <= p < 45 -> getGradePoint p = 4%Z) /\
      (0 <= p < 40 -> getGradePoint p = 0%Z) /\
      (100 < p -> getGradePoint p = 10%Z) /\
      In (getGradePoint p) [0; 4; 5; 6; 7; 8; 9; 10]%Z) /\
  (forall p q : num, p <= q -> (getGradePoint p <= getGradePoint q)%Z) /\
  getGradePoint (parseFloat "80") = 10%Z /\
  getGradePoint (parseFloat "79.999") = 9%Z /\
  getGradePoint (parseFloat "39.999") = 0%Z /\
  getGradePoint (parseFloat "40") = 4%Z.
Proof.
  split; [|split; [exact getGradePoint_mono | repeat split; reflexivity]].
  intros p. destruct p as [q| | |].
  - unfold le, lt, ofZ; simpl inject_Z. rewrite !leb_Fin, !ltb_Fin.
    repeat split; try intros [? ?]; try intros ?;
      grade_cases q; unfold inject_Z in *; simpl; try reflexivity;
      try (exfalso; lra); auto 10.
  - repeat split; try intros [? ?]; try intros ?; try reflexivity;
      try (cbv in *; congruence). simpl; auto 10.
  - repeat split; try intros [? ?]; try intros ?; try reflexivity;
      try (cbv in *; congruence). simpl; auto 10.
  - repeat split; try intros [? ?]; try intros ?; try reflexivity;
      try (cbv in *; congruence). simpl; auto 10.
Qed.

(** The table read at 83, 72.5 and 150 percent, and the order at 39.999
    and 40. *)
Lemma getGradePoint_threshold_table_witness :
  getGradePoint 83 = 10%Z /\
  getGradePoint (Fin (145 # 2)) = 9%Z /\
  getGradePoint 150 = 10%Z /\
  (getGradePoint (Fin (39999 # 1000)) <= getGradePoint 40)%Z.
Proof.
  destruct getGradePoint_threshold_table as [Htable [Hmono _]].
  split; [|split; [|split]].
  - destruct (Htable 83) as (H & _). apply H. reflexivity.
  - destruct (Htable (Fin (145 # 2))) as (_ & H & _).
    apply H. split; reflexivity.
  - destruct (Htable 150) as (_ & _ & _ & _ & _ & _ & _ & _ & H & _).
    apply H. reflexivity.
  - apply (Hmono (Fin (39999 # 1000)) 40). reflexivity.
Defined.

End GradeScale.

(** ** The subject evaluator *)

Section Evaluator.

Local Open Scope num_scope.

Variable doc : Document.
Variable subjectId : Z.

Lemma findSubject_id (st : State) (subject : Subject.t) :
  findSubject st subjectId = Some subject -> Subject.id subject = subjectId.
Proof.
  unfold findSubject. intros H. apply find_some in H as [_ H].
  now apply Z.eqb_eq in H.
Qed.

Lemma sumFields_valid (fields : list Field.t) (total : num) :
  Forall (validEntry doc subjectId) fields ->
  sumFields doc subjectId fields total =
    Returns (Some (fold_left add (map (entered doc subjectId) fields) total)).
Proof.
  intros H. revert total.
  induction H as [|field rest Hf _ IH]; intros total; simpl; [reflexivity|].
  destruct Hf as ([value Hv] & Hne & Hnum & H0 & Hmax).
  unfold entered, enteredText in *. rewrite Hv in *. simpl in *.
  apply String.eqb_neq in Hne. rewrite Hne, Hnum. simpl.
  rewrite (le_not_lt _ _ H0), (le_not_gt _ _ Hmax). simpl.
  apply IH.
Qed.

Lemma sumFields_invalid (fields : list Field.t) (total : num) :
  Forall (present doc subjectId) fields ->
  Exists (invalidEntry doc subjectId) fields ->
  sumFields doc subjectId fields total = Returns None.
Proof.
  intros Hp. revert total.
  induction Hp as [|field rest [value Hv] _ IH]; intros total Hex.
  - inversion Hex.
  - simpl. rewrite Hv.
    destruct ((value =? "")%string || isNaN (parseFloat value)) eqn:E1;
      [reflexivity|].
    destruct ((parseFloat value <? 0) || (parseFloat value >? Fin (Field.max field)))
      eqn:E2; [reflexivity|].
    apply orb_false_elim in E1 as [E1 E1'], E2 as [E2 E2'].
    apply Exists_cons in Hex as [Hbad | Hex]; [exfalso | now apply IH].
    unfold invalidEntry, entered, enteredText, lt in Hbad.
    rewrite Hv in Hbad; simpl in Hbad.
    apply String.eqb_neq in E1. unfold gtb in E2'.
    destruct Hbad as [? | [? | [? | ?]]]; congruence.
Qed.


End Evaluator.

(** Closed side conditions about a concrete page. *)
Ltac on_page :=
  repeat match goal with
  | |- Forall _ (_ :: _) => constructor
  | |- Forall _ [] => constructor
  | |- Forall _ (Subject.fields ?s) =>
      let l := eval vm_compute in (Subject.fields s) in
      change (Subject.fields s) with l
  | |- validEntry _ _ _ => unfold validEntry
  | |- _ /\ _ => split
  | |- present _ _ _ => vm_compute; eexists; reflexivity
  | |- is_Some _ => vm_compute; eexists; reflexivity
  | |- _ <> _ => vm_compute; discriminate
  | |- _ = _ => vm_compute; reflexivity
  | |- le _ _ => vm_compute; reflexivity
  | |- lt _ _ => vm_compute; reflexivity
  end.


Section EvaluatorErrors.

Local Open Scope num_scope.

(** C3. If the entered value of any field of the subject is missing (the
    empty string), non-numeric, negative or greater than the field's max,
    calculateSubject fails with IncompleteOrInvalid, which carries no
    partial result, and records grade point 0 for the subject.  The
    subject with fields ise (max 20) and ese (max 80) and ise = 18,
    ese = "" entered is rejected. *)
Theorem calculateSubject_rejects_invalid_field :
  (forall (doc : Document) (subjectId : Z) (st : State) (subject : Subject.t),
      findSubject st subjectId = Some subject ->
      Forall (present doc subjectId) (Subject.fields subject) ->
      Exists (invalidEntry doc subjectId) (Subject.fields subject) ->
      calculateSubject st doc subjectId =
        (updateGradePoint subjectId 0 st, Returns IncompleteOrInvalid) /\
      gradePoints (calculateSubject st doc subjectId).1 !! subjectId =
        Some 0%Z) /\
  calculateSubject exampleState
    (page [("s1-ise", "18"); ("s1-ese", ""); ("s1-highest", "")]) 1 =
    (updateGradePoint 1 0 exampleState, Returns IncompleteOrInvalid).
Proof.
  split; [|vm_compute; reflexivity].
  intros doc subjectId st subject Hfind Hpresent Hinvalid.
  assert (Hcalc : calculateSubject st doc subjectId =
            (updateGradePoint subjectId 0 st, Returns IncompleteOrInvalid)).
  { unfold calculateSubject.
    now rewrite Hfind, (sumFields_invalid _ _ _ _ Hpresent Hinvalid). }
  rewrite Hcalc. split; [reflexivity|]. simpl. apply lookup_insert_eq.
Qed.

End EvaluatorErrors.

(** A mark above the field's max (25 out of 20) is rejected. *)
Lemma calculateSubject_rejects_invalid_field_witness :
  let doc := page [("s1-ise", "25"); ("s1-ese", "65"); ("s1-highest", "")] in
  calculateSubject exampleState doc 1 =
    (updateGradePoint 1 0 exampleState, Returns IncompleteOrInvalid) /\
  gradePoints (calculateSubject exampleState doc 1).1 !! 1 = Some 0.
Proof.
  intros doc.
  apply (proj1 calculateSubject_rejects_invalid_field doc 1
           exampleState exampleSubject).
  - reflexivity.
  - on_page.
  - apply Exists_cons_hd. right; right; right. vm_compute; reflexivity.
Defined.

(** ** The denominator *)

Section Highest.

Local Open Scope num_scope.

Lemma resolveHighest_override (value : string) (defaultHighest : Q) :
  isNaN (parseFloat value) = false ->
  (parseFloat value =? 0) = false ->
  resolveHighest value defaultHighest = parseFloat value.
Proof. unfold resolveHighest. now intros -> ->. Qed.

Lemma resolveHighest_default (value : string) (defaultHighest : Q) :
  isNaN (parseFloat value) = true \/ (parseFloat value =? 0) = true ->
  resolveHighest value defaultHighest = Fin defaultHighest.
Proof.
  unfold resolveHighest. intros [-> | ->]; [reflexivity|].
  now rewrite orb_true_r.
Qed.

Lemma resolveHighest_positive (value : string) (defaultHighest : Q) :
  0 < parseFloat value ->
  resolveHighest value defaultHighest = parseFloat value.
Proof.
  intros Hpos. apply resolveHighest_override.
  - destruct (parseFloat value); [reflexivity.. | discriminate].
  - unfold lt, ltb in Hpos. unfold eqb. rewrite cmp_flip.
    destruct (cmp 0 (parseFloat value)) as [[]|]; simpl; congruence.
Qed.

Lemma resolveHighest_blank (defaultHighest : Q) :
  resolveHighest "" defaultHighest = Fin defaultHighest.
Proof. reflexivity. Qed.

(** An override above the default is reported, and 0 is recorded. *)
Lemma calculateSubject_highest_exceeds (doc : Document) (subjectId : Z)
    (st : State) (subject : Subject.t) (highestValue : string) :
  findSubject st subjectId = Some subject ->
  Forall (validEntry doc subjectId) (Subject.fields subject) ->
  doc !! highestInputId subjectId = Some highestValue ->
  Fin (Subject.defaultHighest subject)
    < resolveHighest highestValue (Subject.defaultHighest subject) ->
  calculateSubject st doc subjectId =
    (updateGradePoint subjectId 0 st,
     Returns (HighestExceedsDefault (Subject.defaultHighest subject))).
Proof.
  intros Hfind Hvalid Hhighest Hgt. unfold calculateSubject.
  rewrite Hfind, (sumFields_valid _ _ _ _ Hvalid), Hhighest.
  unfold lt in Hgt. unfold gtb. now rewrite Hgt.
Qed.

Example calculateSubject_override_120 :
  calculateSubject exampleState
    (page [("s1-ise", "18"); ("s1-ese", "65"); ("s1-highest", "120")]) 1 =
    (updateGradePoint 1 0 exampleState, Returns (HighestExceedsDefault 100)).
Proof. vm_compute; reflexivity. Qed.

(** C4, where the code departs from it.  The claim takes the override as
    the denominator only when 0 < override <= defaultHighest and
    defaultHighest otherwise.  With defaultHighest = 100, marks 18 and 65
    and the override -50 entered, calculateSubject reports no error and
    divides by -50: the percentage is -166 and grade point 0 is recorded,
    where the claim divides by 100 and gets 83 percent and grade point
    10. *)
Theorem calculateSubject_negative_override :
  exists percentage : num,
    calculateSubject exampleState
      (page [("s1-ise", "18"); ("s1-ese", "65"); ("s1-highest", "-50")]) 1 =
      (updateGradePoint 1 0 exampleState,
       Returns (SubjectPointer 83 (-50) percentage 0)) /\
    percentage == -166.
Proof. eexists. split; vm_compute; reflexivity. Qed.

End Highest.

(** ** The SGPA aggregation *)

Section Sgpa.

Local Open Scope num_scope.

Lemma fold_addSubject (gps : gmap Z Z) (subjects : list Subject.t) (a b : Q) :
  exists a' b' : Q,
    fold_left (addSubject gps) subjects (Fin a, Fin b) = (Fin a', Fin b') /\
    (a' == a + sumQ (map (creditPoints gps) subjects))%Q /\
    (b' == b + sumQ (map Subject.credits subjects))%Q.
Proof.
  revert a b. induction subjects as [|s rest IH]; intros a b; simpl.
  - exists a, b. repeat split; ring.
  - destruct (IH (a + creditPoints gps s)%Q (b + Subject.credits s)%Q)
      as (a' & b' & Hfold & Ha & Hb).
    exists a', b'. split; [exact Hfold|].
    split; [rewrite Ha | rewrite Hb]; ring.
Qed.

(** C5. The SGPA aggregation computes Σ(gradePoint·credits) / Σ(credits)
    over the current subjects, where the grade point of a subject without
    a recorded one is 0: such a subject adds nothing to the numerator and
    its full credits to the denominator.  This is the SGPA that
    calculateOverallSGPA returns, over the grade points recorded by its
    recalculation.  On the empty subject list the sums are 0 and the
    result is NaN, also through calculateOverallSGPA.
    Grade points 10 and 8 with credits 4 and 3 give 64/7. *)
Theorem aggregateSGPA_weighted_mean :
  (forall (subjects : list Subject.t) (gps : gmap Z Z),
      let points := sumQ (map (creditPoints gps) subjects) in
      let credits := sumQ (map Subject.credits subjects) in
      exists sgpa totalCreditPoints totalCredits : num,
        aggregateSGPA subjects gps = SGPA sgpa totalCreditPoints totalCredits /\
        totalCreditPoints == Fin points /\
        totalCredits == Fin credits /\
        sgpa == Fin points / Fin credits /\
        (~ (credits == 0)%Q -> sgpa == Fin (points / credits))) /\
  (forall (gps : gmap Z Z) (subject : Subject.t),
      gps !! Subject.id subject = None ->
      recordedGradePoint gps subject = 0%Z /\
      (creditPoints gps subject == 0)%Q) /\
  (forall gps : gmap Z Z, aggregateSGPA [] gps = SGPA NaN 0 0) /\
  (forall (st st' : State) (doc : Document) (r : SgpaResult),
      calculateOverallSGPA st doc = (st', Returns r) ->
      r = EnterMarksCorrectly \/
      r = aggregateSGPA (currentSubjects st) (gradePoints st')) /\
  (forall (st : State) (doc : Document),
      currentSubjects st = [] ->
      calculateOverallSGPA st doc = (st, Returns (SGPA NaN 0 0))) /\
  (exists sgpa totalCreditPoints totalCredits : num,
      aggregateSGPA
        [Subject.mk 1 "A" 4 [] 100; Subject.mk 2 "B" 3 [] 100]
        (<[1 := 10]> (<[2 := 8]> ∅)) =
        SGPA sgpa totalCreditPoints totalCredits /\
      totalCreditPoints == 64 /\ totalCredits == 7 /\ sgpa == Fin (64 # 7)).
Proof.
  split; [|split; [|split; [|split; [|split]]]].
  - intros subjects gps points credits.
    destruct (fold_addSubject gps subjects 0 0) as (a & b & Hfold & Ha & Hb).
    fold points in Ha. fold credits in Hb.
    rewrite Qplus_0_l in Ha, Hb.
    exists (Fin a / Fin b), (Fin a), (Fin b).
    assert (Hquot : Fin a / Fin b == Fin points / Fin credits)
      by (apply div_proper; assumption).
    split; [|split; [exact Ha | split; [exact Hb | split; [exact Hquot|]]]].
    + unfold aggregateSGPA. change (ofZ 0) with (Fin 0). now rewrite Hfold.
    + intros Hne. rewrite Hquot. simpl.
      destruct (Qeq_bool credits 0) eqn:E; [|simpl; reflexivity].
      apply Qeq_bool_iff in E. contradiction.
  - intros gps subject Hnone. unfold creditPoints, recordedGradePoint.
    rewrite Hnone. simpl. split; [reflexivity | ring].
  - reflexivity.
  - intros st st' doc r. unfold calculateOverallSGPA.
    destruct (subjectsValid doc (currentSubjects st) true) as [[]|];
      [|intros [= <- <-]; now left | discriminate].
    destruct (recalculate st doc (currentSubjects st)) as [st1 [[]|]];
      [intros [= <- <-]; now right | discriminate].
  - intros st doc Hempty. unfold calculateOverallSGPA. rewrite Hempty.
    reflexivity.
  - do 3 eexists. split; [vm_compute; reflexivity|].
    repeat split; vm_compute; reflexivity.
Qed.

End Sgpa.

(** A subject that has not been evaluated, next to one with grade point 9:
    it counts 0 points and its 4 credits. *)
Lemma aggregateSGPA_weighted_mean_witness :
  recordedGradePoint (<[2 := 9]> ∅) exampleSubject = 0%Z /\
  exists sgpa totalCreditPoints totalCredits : num,
    aggregateSGPA [exampleSubject; Subject.mk 2 "B" 2 [] 50] (<[2 := 9]> ∅) =
      SGPA sgpa totalCreditPoints totalCredits /\
    (sgpa == Fin (18 # 6))%num.
Proof.
  destruct aggregateSGPA_weighted_mean as (Hmean & Habsent & _).
  split.
  - apply (Habsent (<[2 := 9]> ∅) exampleSubject). reflexivity.
  - destruct (Hmean [exampleSubject; Subject.mk 2 "B" 2 [] 50] (<[2 := 9]> ∅))
      as (sgpa & tcp & tc & Hagg & _ & _ & _ & Hquot).
    exists sgpa, tcp, tc. split; [exact Hagg|].
    etransitivity; [apply Hquot; vm_compute; discriminate|].
    vm_compute; reflexivity.
Defined.

(** ** The CGPA aggregation *)

Section Cgpa.

Local Open Scope num_scope.

Variable doc : Document.

Lemma rowEntered_passesFilter (a c : num) :
  rowEntered a c = (a >? 0) && (c >? 0).
Proof.
  unfold rowEntered. destruct a, c; simpl; try reflexivity;
    try (rewrite andb_false_r; reflexivity).
Qed.

Lemma rowsOf_cons (sem : Z) (rest : list Z) :
  rowsOf doc (sem :: rest) =
    match semesterRow doc sem with
    | Some r => r :: rowsOf doc rest
    | None => rowsOf doc rest
    end.
Proof. reflexivity. Qed.

Lemma semesterRow_sem (sem : Z) (r : Row.t) :
  semesterRow doc sem = Some r -> Row.sem r = sem.
Proof.
  unfold semesterRow.
  destruct (doc !! sgpaInputId sem), (doc !! creditsInputId sem);
    intros [= <-]; reflexivity.
Qed.

(** One turn of the first loop, on the row of the semester. *)
Lemma sumSemesters_cons (sem : Z) (rest : list Z) (tcp tc : num) (n : nat) :
  sumSemesters doc (sem :: rest) tcp tc n =
    match semesterRow doc sem with
    | Some r =>
        if passesFilter r then
          if exceedsTen r then inl sem
          else sumSemesters doc rest (tcp + rowPoints r) (tc + Row.credits r)
                            (S n)
        else sumSemesters doc rest tcp tc n
    | None => sumSemesters doc rest tcp tc n
    end.
Proof.
  simpl. unfold semesterRow.
  destruct (doc !! sgpaInputId sem) as [sgpaText|];
    [destruct (doc !! creditsInputId sem) as [creditsText|]|];
    try reflexivity.
  rewrite rowEntered_passesFilter. reflexivity.
Qed.

Lemma sumSemesters_filtered (sems : list Z) (tcp tc : num) (n : nat) :
  sumSemesters doc sems tcp tc n =
    match find exceedsTen (filteredRows doc sems) with
    | Some r => inl (Row.sem r)
    | None =>
        inr (fold_left add (map rowPoints (filteredRows doc sems)) tcp,
             fold_left add (map Row.credits (filteredRows doc sems)) tc,
             (n + length (filteredRows doc sems))%nat)
    end.
Proof.
  revert tcp tc n.
  induction sems as [|sem rest IH]; intros tcp tc n.
  - simpl. now rewrite Nat.add_0_r.
  - rewrite sumSemesters_cons. unfold filteredRows in *.
    rewrite rowsOf_cons.
    destruct (semesterRow doc sem) as [r|] eqn:Hrow; [|apply IH].
    cbn [List.filter]. destruct (passesFilter r); [|apply IH].
    cbn [find]. destruct (exceedsTen r).
    + now rewrite (semesterRow_sem _ _ Hrow).
    + rewrite IH. cbn [map fold_left length]. now rewrite Nat.add_succ_r.
Qed.

Lemma renderSemesters_paired (sems : list Z) :
  pairedInputs doc sems -> renderSemesters doc sems = Returns ().
Proof.
  induction 1 as [|sem rest Hsem _ IH]; simpl; [reflexivity|].
  destruct (doc !! sgpaInputId sem) as [sgpaText|]; [|exact IH].
  destruct Hsem as [creditsText ->]; [eauto | exact IH].
Qed.

Lemma calculateCGPA_filtered :
  calculateCGPA doc =
    let rows := filteredRows doc semesters in
    match find exceedsTen rows with
    | Some r => Returns (SGPAOutOfRange (Row.sem r))
    | None =>
        match rows with
        | [] => Returns NoValidSemesters
        | _ =>
            match renderSemesters doc semesters with
            | TypeError => TypeError
            | Returns _ =>
                let totalCreditPoints :=
                  fold_left add (map rowPoints rows) (ofZ 0) in
                let totalCredits :=
                  fold_left add (map Row.credits rows) (ofZ 0) in
                Returns (CGPA (totalCreditPoints / totalCredits)
                              totalCreditPoints totalCredits (length rows))
            end
        end
    end.
Proof.
  unfold calculateCGPA. rewrite sumSemesters_filtered. cbv zeta.
  destruct (find exceedsTen (filteredRows doc semesters)); [reflexivity|].
  destruct (filteredRows doc semesters); reflexivity.
Qed.

Lemma find_none_Forall {A : Type} (f : A -> bool) (l : list A) :
  Forall (fun x => f x = false) l -> find f l = None.
Proof.
  induction 1 as [|x l Hx _ IH]; simpl; [reflexivity|]. now rewrite Hx.
Qed.

Lemma Forall_find_none {A : Type} (f : A -> bool) (l : list A) :
  find f l = None -> Forall (fun x => f x = false) l.
Proof.
  induction l as [|x l IH]; simpl; [constructor|].
  destruct (f x) eqn:E; [discriminate|]. constructor; auto.
Qed.

End Cgpa.

Section CgpaFilter.

Local Open Scope num_scope.


End CgpaFilter.

(** Every sgpa input of a concrete page comes with its credits input. *)
Ltac paired_inputs :=
  unfold pairedInputs, semesters;
  let l := eval vm_compute in (seqZ 1 8) in change (seqZ 1 8) with l;
  repeat match goal with
  | |- Forall _ (_ :: _) =>
      constructor;
      [ let x := fresh in let Hx := fresh in
        intros [x Hx]; vm_compute in Hx |- *;
        first [discriminate Hx | eexists; reflexivity] |]
  end;
  constructor.



Section CgpaRange.

Local Open Scope num_scope.

Variable doc : Document.

Lemma lt_10_lt_0 (a : num) : 10 < a -> 0 < a.
Proof.
  destruct a as [q| | |]; try (cbv; congruence).
  unfold ofZ, inject_Z. rewrite !lt_Fin. lra.
Qed.

Lemma offending_iff (sem : Z) (r : Row.t) :
  semesterRow doc sem = Some r ->
  offending doc sem <-> passesFilter r = true /\ exceedsTen r = true.
Proof.
  intros Hrow. unfold offending, passesFilter, exceedsTen.
  rewrite andb_true_iff, !gtb_lt. split.
  - intros (r' & Hr' & H10 & H0). rewrite Hrow in Hr'.
    injection Hr' as <-. auto using lt_10_lt_0.
  - intros ((_ & H0) & H10). eauto.
Qed.

Lemma sumSemesters_offending (sems : list Z) :
  Exists (offending doc) sems ->
  exists (first : Z) (pre post : list Z),
    sems = pre ++ first :: post /\
    offending doc first /\
    Forall (fun k => ~ offending doc k) pre /\
    forall (tcp tc : num) (n : nat),
      sumSemesters doc sems tcp tc n = inl first.
Proof.
  induction sems as [|sem rest IH]; intros Hex; [inversion Hex|].
  assert (Hdec : offending doc sem \/ ~ offending doc sem).
  { destruct (semesterRow doc sem) as [r|] eqn:Hrow.
    - rewrite (offending_iff _ _ Hrow).
      destruct (passesFilter r), (exceedsTen r); intuition congruence.
    - right. intros (r & Hr & _). congruence. }
  destruct Hdec as [Hoff | Hnot].
  - exists sem, [], rest. repeat split; auto.
    intros tcp tc n. rewrite sumSemesters_cons.
    destruct Hoff as (r & Hrow & H10 & H0).
    assert (Hoff : offending doc sem) by (exists r; auto).
    apply (offending_iff _ _ Hrow) in Hoff as [Hpass Hten].
    now rewrite Hrow, Hpass, Hten.
  - apply Exists_cons in Hex as [Hoff | Hex]; [contradiction|].
    destruct (IH Hex) as (first & pre & post & -> & Hfirst & Hpre & Hsum).
    exists first, (sem :: pre), post. repeat split; auto.
    intros tcp tc n. rewrite sumSemesters_cons.
    destruct (semesterRow doc sem) as [r|] eqn:Hrow; [|apply Hsum].
    destruct (passesFilter r) eqn:Hpass; [|apply Hsum].
    destruct (exceedsTen r) eqn:Hten; [|apply Hsum].
    exfalso. apply Hnot. now apply (offending_iff _ _ Hrow).
Qed.

Lemma rowsOf_semesterRow (sems : list Z) (r : Row.t) :
  In r (rowsOf doc sems) ->
  In (Row.sem r) sems /\ semesterRow doc (Row.sem r) = Some r.
Proof.
  unfold rowsOf. rewrite <- list_elem_of_In, list_elem_of_omap.
  intros (sem & Hsem & Hrow). rewrite (semesterRow_sem _ _ _ Hrow).
  split; [now apply list_elem_of_In | exact Hrow].
Qed.

End CgpaRange.

(** C7, as the code has it.  The claim as stated fails: the test for an
    sgpa above 10 is made only on rows that pass the filter, so a row with
    sgpa 10.5 and blank credits is merely left out.  What holds: if any
    semester row has sgpa > 10 and credits > 0, calculateCGPA fails with
    SGPAOutOfRange naming the first such semester and computes no CGPA,
    whatever the other rows hold; and it fails so only then. *)
Theorem calculateCGPA_rejects_sgpa_above_10 :
  (forall (doc : Document) (sem : Z),
      In sem semesters ->
      offending doc sem ->
      exists (first : Z) (pre post : list Z),
        calculateCGPA doc = Returns (SGPAOutOfRange first) /\
        semesters = pre ++ first :: post /\
        offending doc first /\
        Forall (fun k => ~ offending doc k) pre) /\
  (forall (doc : Document) (sem : Z),
      calculateCGPA doc = Returns (SGPAOutOfRange sem) ->
      In sem semesters /\ offending doc sem) /\
  calculateCGPA
    (cgpaForm [("9", "20"); ("10.5", "22"); ("11", "21"); ("8", "20")]) =
    Returns (SGPAOutOfRange 2).
Proof.
  split; [|split; [|vm_compute; reflexivity]].
  - intros doc sem Hin Hoff.
    assert (Hex : Exists (offending doc) semesters)
      by (apply List.Exists_exists; eauto).
    destruct (sumSemesters_offending doc semesters Hex)
      as (first & pre & post & Hsplit & Hfirst & Hpre & Hsum).
    exists first, pre, post. repeat split; auto.
    unfold calculateCGPA. now rewrite Hsum.
  - intros doc sem. rewrite calculateCGPA_filtered. cbv zeta.
    destruct (find exceedsTen (filteredRows doc semesters)) as [r|] eqn:Hfind.
    + intros [= <-]. apply find_some in Hfind as [Hin Hten].
      apply filter_In in Hin as [Hin Hpass].
      apply rowsOf_semesterRow in Hin as [Hin Hrow].
      split; [exact Hin|]. now apply (offending_iff _ _ _ Hrow).
    + destruct (filteredRows doc semesters); [discriminate|].
      destruct (renderSemesters doc semesters); discriminate.
Qed.

(** Semester 3 with sgpa 12 and 20 credits, after two rows within range. *)
Lemma calculateCGPA_rejects_sgpa_above_10_witness :
  let doc := cgpaForm [("9", "20"); ("8", "22"); ("12", "20")] in
  exists (first : Z) (pre post : list Z),
    calculateCGPA doc = Returns (SGPAOutOfRange first) /\
    semesters = pre ++ first :: post /\
    offending doc first /\
    Forall (fun k => ~ offending doc k) pre.
Proof.
  intros doc.
  apply (proj1 calculateCGPA_rejects_sgpa_above_10 doc 3).
  - vm_compute. auto.
  - eexists. split; [vm_compute; reflexivity|]. split; vm_compute; reflexivity.
Defined.

(** C7 as stated fails on this page: semester 1 has sgpa 10.5 but blank
    credits; calculateCGPA reports no error and returns the CGPA of the
    remaining row, 180 / 20. *)
Lemma calculateCGPA_sgpa_above_10_filtered_out :
  let doc := cgpaForm [("10.5", ""); ("9", "20")] in
  (exists r : Row.t, semesterRow doc 1 = Some r /\ (10 < Row.sgpa r)%num) /\
  (forall sem : Z, calculateCGPA doc <> Returns (SGPAOutOfRange sem)) /\
  (exists cgpa : num,
      calculateCGPA doc = Returns (CGPA cgpa 180 20 1) /\ (cgpa == 9)%num).
Proof.
  intros doc. split; [|split].
  - eexists. split; vm_compute; reflexivity.
  - intros sem. vm_compute. discriminate.
  - eexists. split; vm_compute; reflexivity.
Qed.

Section CgpaBounds.

Local Open Scope num_scope.

Lemma ltb_Fin_false (x y : Q) : (Fin x <? Fin y) = false <-> (y <= x)%Q.
Proof.
  rewrite <- not_true_iff_false, ltb_Fin. split.
  - apply Qnot_lt_le.
  - apply Qle_not_lt.
Qed.

Lemma not_gt_le (a : num) : 0 < a -> (a >? 10) = false -> a <= 10.
Proof.
  destruct a as [q| | |]; try (cbv; congruence).
  unfold gtb, ofZ, inject_Z. rewrite ltb_Fin_false, le_Fin. auto.
Qed.

Lemma inRange_cases (r : Row.t) :
  inRange r ->
  exists s : Q, Row.sgpa r = Fin s /\ (0 < s <= 10)%Q /\
    ((exists k : Q, Row.credits r = Fin k /\ (0 < k)%Q) \/ Row.credits r = PInf).
Proof.
  intros [[Hs0 Hs10] Hc].
  destruct (Row.sgpa r) as [s| | |]; try (cbv in Hs0, Hs10; congruence).
  exists s. unfold ofZ, inject_Z in *. apply lt_Fin in Hs0. apply le_Fin in Hs10.
  split; [reflexivity | split; [auto|]].
  destruct (Row.credits r) as [k| | |]; try (cbv in Hc; congruence).
  - apply lt_Fin in Hc. eauto.
  - now right.
Qed.

Lemma signedInf_pos (s : Q) : (0 < s)%Q -> signedInf s true = PInf.
Proof.
  intros Hs. unfold signedInf. apply Qgt_alt in Hs. now rewrite Hs.
Qed.

Lemma boundedSums_step (n : nat) (points credits : num) (r : Row.t) :
  boundedSums n points credits ->
  inRange r ->
  boundedSums (S n) (points + rowPoints r) (credits + Row.credits r).
Proof.
  intros Hsums Hr.
  destruct (inRange_cases r Hr) as (s & Hsgpa & [Hs0 Hs10] & Hcredits).
  unfold rowPoints. rewrite Hsgpa.
  destruct Hsums as [(a & b & -> & -> & Ha & Hab & _) | (_ & -> & ->)];
    destruct Hcredits as [(k & -> & Hk) | ->]; simpl;
    try rewrite (signedInf_pos s Hs0);
    try (right; repeat split; discriminate).
  left. exists (a + s * k)%Q, (b + k)%Q.
  assert (0 < s * k)%Q by nra.
  assert (s * k <= 10 * k)%Q by nra.
  repeat split; try reflexivity; lra.
Qed.

Lemma boundedSums_fold (rows : list Row.t) :
  Forall inRange rows ->
  forall (n : nat) (points credits : num),
    boundedSums n points credits ->
    boundedSums (n + length rows)
      (fold_left add (map rowPoints rows) points)
      (fold_left add (map Row.credits rows) credits).
Proof.
  induction 1 as [|r rows Hr _ IH]; intros n points credits Hsums; simpl.
  - now rewrite Nat.add_0_r.
  - rewrite Nat.add_succ_r. apply (IH (S n)). now apply boundedSums_step.
Qed.

Lemma boundedSums_quotient (n : nat) (points credits : num) :
  boundedSums n points credits ->
  n <> O ->
  0 < points / credits <= 10 \/ (points / credits = NaN /\ credits = PInf).
Proof.
  intros [(a & b & -> & -> & Ha & Hab & Hpos) | (_ & -> & ->)] Hn.
  - left. destruct (Hpos Hn) as [Ha0 Hb0]. simpl.
    destruct (Qeq_bool b 0) eqn:E.
    + apply Qeq_bool_iff in E. lra.
    + unfold ofZ, inject_Z. rewrite lt_Fin, le_Fin. split.
      * apply Qlt_shift_div_l; lra.
      * apply Qle_shift_div_r; lra.
  - right. split; reflexivity.
Qed.

Lemma finite_fold (rows : list Row.t) :
  Forall inRange rows ->
  Forall (fun r => Row.credits r <> PInf) rows ->
  forall a b : Q,
    exists a' b' : Q,
      fold_left add (map rowPoints rows) (Fin a) = Fin a' /\
      fold_left add (map Row.credits rows) (Fin b) = Fin b'.
Proof.
  induction 1 as [|r rows Hr _ IH]; intros Hfin a b; simpl; [eauto|].
  apply Forall_cons in Hfin as [Hfin Hrest].
  destruct (inRange_cases r Hr) as (s & Hsgpa & _ & [(k & Hk & _) | Hinf]);
    [|contradiction].
  unfold rowPoints. rewrite Hsgpa, Hk. simpl. apply IH, Hrest.
Qed.


End CgpaBounds.


(** ** The exam-score predictor *)

Section Predictor.

Local Open Scope num_scope.

Variable doc : Document.
Variable subjectId : Z.

Lemma addNonEse_step (t : num) (b : bool) (field : Field.t) :
  exists t' : num,
    addNonEse doc subjectId (t, b) field =
      (t', b || enteredb doc subjectId field) /\
    t' == (if isEse field then t else t + numericEntry doc subjectId field).
Proof.
  unfold addNonEse, enteredb, numericEntry, entered, enteredText.
  destruct (isEse field); simpl.
  - exists t. now rewrite orb_false_r.
  - destruct (doc !! fieldInputId subjectId (Field.name field)) as [value|];
      simpl.
    + destruct (value =? "")%string eqn:E; simpl.
      * apply String.eqb_eq in E. subst value. exists t.
        rewrite orb_false_r. split; [reflexivity|].
        symmetry. apply add_0_r.
      * rewrite orb_true_r. destruct (isNaN (parseFloat value)); simpl.
        -- exists t. split; [reflexivity|]. symmetry. apply add_0_r.
        -- eexists. split; reflexivity.
    + exists t. rewrite orb_false_r. split; [reflexivity|].
      symmetry. apply add_0_r.
Qed.

Lemma fold_addNonEse (fields : list Field.t) (t : num) (b : bool) :
  exists t' : num,
    fold_left (addNonEse doc subjectId) fields (t, b) =
      (t', b || existsb (enteredb doc subjectId) fields) /\
    t' == t + currentTotalOf doc subjectId fields.
Proof.
  revert t b. induction fields as [|field rest IH]; intros t b.
  - exists t. simpl. rewrite orb_false_r. split; [reflexivity|].
    symmetry. apply add_0_r.
  - destruct (addNonEse_step t b field) as (t1 & Hstep & Ht1).
    destruct (IH t1 (b || enteredb doc subjectId field)) as (t' & Hfold & Ht').
    exists t'. cbn [fold_left existsb]. rewrite Hstep, Hfold, orb_assoc.
    split; [reflexivity|].
    rewrite Ht', Ht1. unfold currentTotalOf, nonFinal. cbn [List.filter].
    destruct (isEse field); simpl; [reflexivity | apply add_assoc].
Qed.

Lemma existsb_enteredb_false (fields : list Field.t) :
  existsb (enteredb doc subjectId) fields = false <->
  Forall (fun f => Field.name f <> "ese" -> enteredText doc subjectId f = "")
         fields.
Proof.
  induction fields as [|field rest IH]; simpl.
  - split; [constructor | reflexivity].
  - rewrite orb_false_iff, IH. unfold enteredb at 1, isEse.
    split.
    + intros [Hf Hrest]. constructor; [|exact Hrest].
      intros Hne. apply String.eqb_neq in Hne. rewrite Hne in Hf. simpl in Hf.
      apply negb_false_iff in Hf. now apply String.eqb_eq.
    + intros H. apply Forall_cons in H as [Hf Hrest]. split; [|exact Hrest].
      destruct (Field.name field =? "ese")%string eqn:E; [reflexivity|].
      apply String.eqb_neq in E. rewrite (Hf E). reflexivity.
Qed.

Lemma find_isEse_none (fields : list Field.t) :
  find isEse fields = None <-> Forall (fun f => Field.name f <> "ese") fields.
Proof.
  split.
  - intros H. apply Forall_find_none in H.
    eapply Forall_impl; [exact H|]. intros f Hf. now apply String.eqb_neq.
  - intros H. apply find_none_Forall.
    eapply Forall_impl; [exact H|]. intros f Hf. now apply String.eqb_neq.
Qed.

Lemma find_isEse_some (fields : list Field.t) (eseField : Field.t) :
  find isEse fields = Some eseField ->
  In eseField fields /\ Field.name eseField = "ese".
Proof.
  intros H. apply find_some in H as [Hin Hese].
  split; [exact Hin | now apply String.eqb_eq].
Qed.

Lemma verdict_stated (need : num) (eseMax : Q) :
  (0 <= eseMax)%Q -> verdict need eseMax = statedVerdict need eseMax.
Proof.
  intros Hmax. unfold verdict, statedVerdict.
  destruct (need <=? 0) eqn:E0.
  - assert (Hle : need <= Fin eseMax).
    { apply (le_trans _ 0); [exact E0|]. unfold ofZ, inject_Z.
      now apply le_Fin. }
    unfold le in Hle. now rewrite Hle.
  - destruct (need <=? Fin eseMax); reflexivity.
Qed.

Lemma verdict_Need_integer (x : num) (eseMax : Q) (marks : num) (m : Q) :
  verdict (ceil x) eseMax = Need marks m ->
  exists z : Z, marks = ofZ z /\ (0 < z)%Z /\ (inject_Z z <= eseMax)%Q /\ m = eseMax.
Proof.
  unfold verdict.
  destruct (ceil x <=? Fin eseMax) eqn:Emax; [|discriminate].
  destruct (ceil x <=? 0) eqn:E0; [discriminate|].
  intros [= <- <-].
  destruct x as [q| | |]; try (cbv in Emax, E0; congruence).
  simpl in *. exists (Qceiling q). unfold ofZ in *.
  apply leb_Fin in Emax. apply leb_Fin_false in E0.
  rewrite <- Zlt_Qlt in E0. auto.
Qed.

End Predictor.

Section PredictorClaims.

Local Open Scope num_scope.



End PredictorClaims.




(** * Further properties of the code *)

(** ** [calculateSubject] and the state *)

Section SubjectState.

Local Open Scope num_scope.

Variable doc : Document.
Variable subjectId : Z.

Lemma getGradePoint_values (p : num) : In (getGradePoint p) gradeValues.
Proof.
  unfold getGradePoint, gradeValues.
  repeat match goal with
  | |- context [if ?b then _ else _] => destruct b
  end; simpl; auto 10.
Qed.

(** The result of [calculateSubject] depends on the state through
    [currentSubjects] only, and the new state is the old one with the
    grade point of the result stored. *)
Lemma calculateSubject_shape (st : State) :
  exists r : outcome SubjectResult,
    (forall x gp, r = Returns x -> recorded x = Some gp -> In gp gradeValues) /\
    (forall x, r = Returns x -> recorded x = None -> findSubject st subjectId = None) /\
    forall st0 : State,
      currentSubjects st0 = currentSubjects st ->
      calculateSubject st0 doc subjectId = (afterResult subjectId r st0, r).
Proof.
  unfold calculateSubject, findSubject.
  destruct (find (fun s => Subject.id s =? subjectId)%Z (currentSubjects st))
    as [subject|] eqn:Hfind.
  - destruct (sumFields doc subjectId (Subject.fields subject) 0)
      as [[total|]|] eqn:Hsum.
    + destruct (doc !! highestInputId subjectId) as [highestValue|] eqn:Hhighest.
      * destruct (resolveHighest highestValue (Subject.defaultHighest subject)
                  >? Fin (Subject.defaultHighest subject)) eqn:Hgt.
        -- exists (Returns (HighestExceedsDefault (Subject.defaultHighest subject))).
           split; [intros x gp [= <-] [= <-]; simpl; auto|].
           split; [intros x [= <-]; discriminate|].
           intros st0 ->. now rewrite Hfind, Hsum, Hgt.
        -- eexists (Returns (SubjectPointer total _ _ _)).
           split; [intros x gp [= <-] [= <-]; apply getGradePoint_values|].
           split; [intros x [= <-]; discriminate|].
           intros st0 ->. rewrite Hfind, Hsum, Hgt. reflexivity.
      * exists TypeError. split; [discriminate|]. split; [discriminate|].
        intros st0 ->. now rewrite Hfind, Hsum.
    + exists (Returns IncompleteOrInvalid).
      split; [intros x gp [= <-] [= <-]; simpl; auto|].
      split; [intros x [= <-]; discriminate|].
      intros st0 ->. now rewrite Hfind, Hsum.
    + exists TypeError. split; [discriminate|]. split; [discriminate|].
      intros st0 ->. now rewrite Hfind, Hsum.
  - exists (Returns NoSubject). split; [intros x gp [= <-]; discriminate|].
    split; [reflexivity|]. intros st0 ->. now rewrite Hfind.
Qed.

Lemma afterResult_currentSubjects (r : outcome SubjectResult) (st : State) :
  currentSubjects (afterResult subjectId r st) = currentSubjects st.
Proof. destruct r as [x|]; [|reflexivity]. simpl. now destruct (recorded x). Qed.

Lemma afterResult_twice (r : outcome SubjectResult) (st : State) :
  afterResult subjectId r (afterResult subjectId r st)
  = afterResult subjectId r st.
Proof.
  destruct r as [x|]; [|reflexivity]. simpl.
  destruct (recorded x) as [gp|]; [|reflexivity].
  unfold updateGradePoint. simpl. f_equal. apply insert_insert_eq.
Qed.

(** X1. calculateSubject touches nothing in the state but the grade point
    of its subject: the selection and the subject list stay, the grade
    point of every other id stays, and the grade point of the subject
    either stays or becomes a value of the grade scale. *)
Theorem calculateSubject_records_only_its_grade :
  forall st : State,
    let st' := (calculateSubject st doc subjectId).1 in
    selectedBranch st' = selectedBranch st /\
    selectedSemester st' = selectedSemester st /\
    selectedBatch st' = selectedBatch st /\
    currentSubjects st' = currentSubjects st /\
    (forall other : Z,
        other <> subjectId ->
        gradePoints st' !! other = gradePoints st !! other) /\
    (gradePoints st' = gradePoints st \/
     exists gp : Z, In gp gradeValues /\
                    gradePoints st' = <[subjectId := gp]> (gradePoints st)).
Proof.
  intros st st'. subst st'.
  destruct (calculateSubject_shape st) as (r & Hgrade & _ & Hshape).
  rewrite (Hshape st eq_refl). simpl.
  destruct r as [x|]; simpl; [|repeat split; auto].
  destruct (recorded x) as [gp|] eqn:Hrec; simpl; [|repeat split; auto].
  repeat split; auto.
  - intros other Hne. now apply lookup_insert_ne.
  - right. exists gp. split; [eapply Hgrade; eauto | reflexivity].
Qed.

(** X2. Evaluating a subject a second time on the same page changes
    nothing: the second call returns the result of the first and leaves
    the state of the first. *)
Theorem calculateSubject_idempotent :
  forall st : State,
    calculateSubject (calculateSubject st doc subjectId).1 doc subjectId
    = calculateSubject st doc subjectId.
Proof.
  intros st.
  destruct (calculateSubject_shape st) as (r & _ & _ & Hshape).
  rewrite (Hshape st eq_refl). simpl.
  rewrite (Hshape (afterResult subjectId r st)
             (afterResult_currentSubjects r st)).
  now rewrite afterResult_twice.
Qed.

(** X3. A missing input stops the evaluation before anything is
    recorded: when the input of a field is not on the page and the fields
    before it hold valid values, or when every field is valid and the
    "highest" input is not on the page, calculateSubject ends with a
    TypeError and the state is the one it was called with. *)
Theorem calculateSubject_missing_input :
  forall (st : State) (subject : Subject.t),
    findSubject st subjectId = Some subject ->
    (forall (before after : list Field.t) (field : Field.t),
        Subject.fields subject = before ++ field :: after ->
        Forall (validEntry doc subjectId) before ->
        doc !! fieldInputId subjectId (Field.name field) = None ->
        calculateSubject st doc subjectId = (st, TypeError)) /\
    (Forall (validEntry doc subjectId) (Subject.fields subject) ->
     doc !! highestInputId subjectId = None ->
     calculateSubject st doc subjectId = (st, TypeError)).
Proof.
  intros st subject Hfind. split.
  - intros before after field Hfields Hvalid Hmissing.
    unfold calculateSubject. rewrite Hfind, Hfields. clear Hfields.
    assert (Hsum : forall total,
               sumFields doc subjectId (before ++ field :: after) total
               = TypeError).
    { induction Hvalid as [|f rest Hf _ IH]; intros total; simpl.
      - now rewrite Hmissing.
      - destruct Hf as ([value Hv] & Hne & Hnum & H0 & Hmax).
        unfold entered, enteredText in *. rewrite Hv in *. simpl in *.
        apply String.eqb_neq in Hne. rewrite Hne, Hnum. simpl.
        rewrite (le_not_lt _ _ H0), (le_not_gt _ _ Hmax). simpl. apply IH. }
    now rewrite Hsum.
  - intros Hvalid Hmissing. unfold calculateSubject.
    now rewrite Hfind, (sumFields_valid _ _ _ _ Hvalid), Hmissing.
Qed.

Lemma fieldsValid_as_sumFields (fields : list Field.t) (total : num) :
  fieldsValid doc subjectId fields =
    match sumFields doc subjectId fields total with
    | TypeError => TypeError
    | Returns (Some _) => Returns true
    | Returns None => Returns false
    end.
Proof.
  revert total.
  induction fields as [|field rest IH]; intros total; simpl; [reflexivity|].
  destruct (doc !! fieldInputId subjectId (Field.name field)) as [value|];
    [|reflexivity].
  destruct (isNaN (parseFloat value)), (value =? "")%string; simpl;
    try reflexivity.
  destruct ((parseFloat value <? 0) || (parseFloat value >? Fin (Field.max field)));
    simpl; [reflexivity | apply IH].
Qed.

(** X4. The input check of calculateOverallSGPA and the field loop of
    calculateSubject decide alike on every page: they raise the TypeError
    together, and the check accepts the fields exactly when the loop
    reaches a total. *)
Theorem fieldsValid_agrees_with_sumFields :
  forall (fields : list Field.t) (total : num),
    fieldsValid doc subjectId fields =
      match sumFields doc subjectId fields total with
      | TypeError => TypeError
      | Returns (Some _) => Returns true
      | Returns None => Returns false
      end.
Proof. exact fieldsValid_as_sumFields. Qed.

End SubjectState.

(** A page without the input of the exam: the evaluation of the example
    subject stops with a TypeError and records nothing. *)
Lemma calculateSubject_missing_input_witness :
  calculateSubject exampleState
    (page [("s1-ise", "18"); ("s1-highest", "")]) 1 = (exampleState, TypeError).
Proof.
  apply (proj1 (calculateSubject_missing_input
                  (page [("s1-ise", "18"); ("s1-highest", "")]) 1
                  exampleState exampleSubject eq_refl)
           [Field.mk "ise" "ISE" 20] [] (Field.mk "ese" "ESE" 80)).
  - reflexivity.
  - on_page.
  - vm_compute; reflexivity.
Defined.

(** The grade point of subject 7 is kept when subject 1 is evaluated. *)
Lemma calculateSubject_records_only_its_grade_witness :
  let st := updateGradePoint 7 9 exampleState in
  let doc := page [("s1-ise", "18"); ("s1-ese", "65"); ("s1-highest", "")] in
  gradePoints (calculateSubject st doc 1).1 !! 7 = Some 9.
Proof.
  intros st doc.
  destruct (calculateSubject_records_only_its_grade doc 1 st)
    as (_ & _ & _ & _ & Hother & _).
  rewrite (Hother 7); [reflexivity | discriminate].
Defined.

(** ** [calculateOverallSGPA] *)

Section OverallSgpa.

Local Open Scope num_scope.

Variable doc : Document.

Lemma sumFields_present (subjectId : Z) (fields : list Field.t) (total : num) :
  Forall (present doc subjectId) fields ->
  exists o : option num, sumFields doc subjectId fields total = Returns o.
Proof.
  intros Hp. revert total.
  induction Hp as [|field rest [value Hv] _ IH]; intros total; simpl; [eauto|].
  rewrite Hv.
  destruct ((value =? "")%string || isNaN (parseFloat value)); [eauto|].
  destruct ((parseFloat value <? 0) || (parseFloat value >? Fin (Field.max field)));
    [eauto | apply IH].
Qed.

Lemma fieldsAccepted_invalid (subject : Subject.t) :
  Forall (present doc (Subject.id subject)) (Subject.fields subject) ->
  Exists (invalidEntry doc (Subject.id subject)) (Subject.fields subject) ->
  fieldsValid doc (Subject.id subject) (Subject.fields subject) = Returns false.
Proof.
  intros Hp Hinv.
  rewrite (fieldsValid_as_sumFields _ _ _ (ofZ 0)).
  now rewrite (sumFields_invalid _ _ _ _ Hp Hinv).
Qed.

Lemma subjectsValid_present (subjects : list Subject.t) (allValid : bool) :
  Forall (fun s => Forall (present doc (Subject.id s)) (Subject.fields s))
         subjects ->
  subjectsValid doc subjects allValid =
    Returns (allValid && forallb (fieldsAccepted doc) subjects).
Proof.
  intros Hp. revert allValid.
  induction Hp as [|s rest Hs _ IH]; intros allValid; simpl.
  - now rewrite andb_true_r.
  - unfold fieldsAccepted at 1.
    rewrite (fieldsValid_as_sumFields _ _ _ (ofZ 0)).
    destruct (sumFields_present (Subject.id s) (Subject.fields s) (ofZ 0) Hs)
      as [o ->].
    destruct o; rewrite IH; simpl.
    + now rewrite andb_true_r.
    + now rewrite andb_false_r.
Qed.

(** X5. When every field input of the current subjects is on the page
    and the value of some field of some subject is missing, non-numeric,
    negative or above its max, calculateOverallSGPA asks for correct
    marks and leaves the state as it was: no subject is recalculated, and
    the grade points recorded before stay. *)
Theorem calculateOverallSGPA_rejects_without_recalculating :
  forall st : State,
    Forall (fun s => Forall (present doc (Subject.id s)) (Subject.fields s))
           (currentSubjects st) ->
    Exists (fun s => Exists (invalidEntry doc (Subject.id s)) (Subject.fields s))
           (currentSubjects st) ->
    calculateOverallSGPA st doc = (st, Returns EnterMarksCorrectly).
Proof.
  intros st Hp Hinv. unfold calculateOverallSGPA.
  rewrite (subjectsValid_present _ _ Hp). simpl.
  replace (forallb (fieldsAccepted doc) (currentSubjects st)) with false;
    [reflexivity|].
  symmetry. apply not_true_iff_false. intros Hall.
  rewrite forallb_forall in Hall.
  apply List.Exists_exists in Hinv as (s & Hin & Hbad).
  specialize (Hall s Hin). unfold fieldsAccepted in Hall.
  rewrite fieldsAccepted_invalid in Hall; [discriminate | | exact Hbad].
  exact (proj1 (List.Forall_forall _ _) Hp s Hin).
Qed.

Lemma resultOf_shape (st st0 : State) (subjectId : Z) :
  currentSubjects st0 = currentSubjects st ->
  calculateSubject st0 doc subjectId =
    (afterResult subjectId (resultOf st doc subjectId) st0,
     resultOf st doc subjectId).
Proof.
  intros Hcs.
  destruct (calculateSubject_shape doc subjectId st) as (r & _ & _ & Hshape).
  unfold resultOf. rewrite (Hshape st eq_refl). simpl. now apply Hshape.
Qed.

Lemma resultOf_recorded (st : State) (sub : Subject.t) (x : SubjectResult) :
  In sub (currentSubjects st) ->
  resultOf st doc (Subject.id sub) = Returns x ->
  exists gp : Z, recorded x = Some gp /\ In gp gradeValues.
Proof.
  intros Hin Hres.
  destruct (calculateSubject_shape doc (Subject.id sub) st)
    as (r & Hgrade & Hnone & Hshape).
  unfold resultOf in Hres. rewrite (Hshape st eq_refl) in Hres. simpl in Hres.
  destruct (recorded x) as [gp|] eqn:Hrec; [eauto|].
  exfalso. specialize (Hnone x Hres Hrec). unfold findSubject in Hnone.
  eapply find_none in Hnone; [|exact Hin]. simpl in Hnone.
  rewrite Z.eqb_refl in Hnone. discriminate.
Qed.

Lemma gradeRecorded_step (st st0 : State) (sid id gp : Z) :
  (forall x, resultOf st doc sid = Returns x -> recorded x = Some gp) ->
  gradeRecorded st doc (gradePoints st0) id ->
  gradeRecorded st doc (gradePoints (updateGradePoint sid gp st0)) id.
Proof.
  intros Hsid (x & g & Hres & Hrec & Hin & Hlookup).
  exists x, g. repeat split; auto. simpl.
  destruct (decide (sid = id)) as [->|Hne].
  - rewrite lookup_insert_eq. specialize (Hsid x Hres). congruence.
  - now rewrite lookup_insert_ne.
Qed.

Lemma recalculate_records (st : State) (l : list Subject.t) :
  forall (st0 st' : State) (u : unit),
    currentSubjects st0 = currentSubjects st ->
    incl l (currentSubjects st) ->
    recalculate st0 doc l = (st', Returns u) ->
    currentSubjects st' = currentSubjects st /\
    selectedBranch st' = selectedBranch st0 /\
    selectedSemester st' = selectedSemester st0 /\
    selectedBatch st' = selectedBatch st0 /\
    (forall id, gradeRecorded st doc (gradePoints st0) id ->
                gradeRecorded st doc (gradePoints st') id) /\
    (forall sub, In sub l ->
                 gradeRecorded st doc (gradePoints st') (Subject.id sub)) /\
    (forall id, ~ In id (map Subject.id l) ->
                gradePoints st' !! id = gradePoints st0 !! id).
Proof.
  induction l as [|sub rest IH]; intros st0 st' u Hcs Hincl Hrec.
  - simpl in Hrec. injection Hrec as <- _. repeat split; auto.
    intros sub [].
  - simpl in Hrec. rewrite (resultOf_shape st st0 _ Hcs) in Hrec.
    destruct (resultOf st doc (Subject.id sub)) as [x|] eqn:Hres;
      [|discriminate].
    destruct (resultOf_recorded st sub x) as (gp & Hgp & Hin);
      [apply Hincl; now left | exact Hres |].
    simpl in Hrec. rewrite Hgp in Hrec.
    assert (Hrest : incl rest (currentSubjects st))
      by (intros s Hs; apply Hincl; now right).
    destruct (IH (updateGradePoint (Subject.id sub) gp st0) st' u Hcs Hrest Hrec)
      as (Hcs' & Hb & Hs & Hba & Hkeep & Hall & Hother).
    repeat split; auto.
    + intros id Hid. apply Hkeep. apply gradeRecorded_step; [|exact Hid].
      intros x' Hx'. rewrite Hres in Hx'. injection Hx' as <-. exact Hgp.
    + intros s [<- | Hs'].
      * apply Hkeep. exists x, gp. repeat split; auto.
        simpl. apply lookup_insert_eq.
      * now apply Hall.
    + intros id Hnot. simpl in Hnot. rewrite Hother by tauto.
      simpl. apply lookup_insert_ne. tauto.
Qed.

Lemma calculateOverallSGPA_inv (st st' : State) (sgpa tcp tc : num) :
  calculateOverallSGPA st doc = (st', Returns (SGPA sgpa tcp tc)) ->
  (exists u : unit, recalculate st doc (currentSubjects st) = (st', Returns u)) /\
  aggregateSGPA (currentSubjects st) (gradePoints st') = SGPA sgpa tcp tc.
Proof.
  unfold calculateOverallSGPA.
  destruct (subjectsValid doc (currentSubjects st) true) as [[]|];
    [|discriminate..].
  destruct (recalculate st doc (currentSubjects st)) as [st1 [u|]];
    [|discriminate].
  intros [= <- Hagg]. split; [eauto | exact Hagg].
Qed.

(** X6. When calculateOverallSGPA returns an SGPA, the selection and the
    subject list are untouched, every current subject has a recorded
    grade point, which is a value of the grade scale and the one
    calculateSubject records for it on its own, and the grade points of
    ids outside the subject list are the ones recorded before. *)
Theorem calculateOverallSGPA_records_every_subject :
  forall (st st' : State) (sgpa totalCreditPoints totalCredits : num),
    calculateOverallSGPA st doc =
      (st', Returns (SGPA sgpa totalCreditPoints totalCredits)) ->
    currentSubjects st' = currentSubjects st /\
    selectedBranch st' = selectedBranch st /\
    selectedSemester st' = selectedSemester st /\
    selectedBatch st' = selectedBatch st /\
    (forall sub : Subject.t,
        In sub (currentSubjects st) ->
        exists gp : Z,
          In gp gradeValues /\
          gradePoints st' !! Subject.id sub = Some gp /\
          gradePoints (calculateSubject st doc (Subject.id sub)).1
            !! Subject.id sub = Some gp) /\
    (forall id : Z,
        ~ In id (map Subject.id (currentSubjects st)) ->
        gradePoints st' !! id = gradePoints st !! id).
Proof.
  intros st st' sgpa tcp tc Hcalc.
  apply calculateOverallSGPA_inv in Hcalc as [[u Hrec] _].
  destruct (recalculate_records st (currentSubjects st) st st' u eq_refl
              (incl_refl _) Hrec)
    as (Hcs & Hb & Hs & Hba & _ & Hall & Hother).
  repeat split; auto.
  intros sub Hin. destruct (Hall sub Hin) as (x & gp & Hres & Hgp & Hgrade & Hl).
  exists gp. repeat split; auto.
  rewrite (resultOf_shape st st _ eq_refl). simpl. rewrite Hres. simpl.
  rewrite Hgp. simpl. apply lookup_insert_eq.
Qed.

Lemma gradeValues_bounds (gp : Z) : In gp gradeValues -> (0 <= gp <= 10)%Z.
Proof. unfold gradeValues. simpl. intuition lia. Qed.

Lemma creditPoints_bounds (gps : gmap Z Z) (subjects : list Subject.t) :
  Forall (fun sub => (0 < Subject.credits sub)%Q /\
                     (0 <= recordedGradePoint gps sub <= 10)%Z) subjects ->
  (0 <= sumQ (map (creditPoints gps) subjects))%Q /\
  (sumQ (map (creditPoints gps) subjects)
   <= 10 * sumQ (map Subject.credits subjects))%Q /\
  (subjects <> [] -> (0 < sumQ (map Subject.credits subjects))%Q).
Proof.
  induction 1 as [|sub rest [Hc [Hg0 Hg10]] Hrest IH]; simpl.
  - repeat split; try lra. congruence.
  - destruct IH as (H0 & H10 & _).
    assert (Hcredits : (0 <= sumQ (map Subject.credits rest))%Q).
    { clear -Hrest. induction Hrest as [|s r [Hs _] _ IH]; simpl; lra. }
    unfold creditPoints at 1 3.
    assert (0 <= inject_Z (recordedGradePoint gps sub))%Q
      by (rewrite <- (Zle_Qle 0); exact Hg0).
    assert (inject_Z (recordedGradePoint gps sub) <= 10)%Q
      by (rewrite <- (Zle_Qle _ 10); exact Hg10).
    repeat split; try nra.
Qed.

(** X7. When the subject list is not empty and every subject has positive
    credits, the SGPA that calculateOverallSGPA returns is a number
    between 0 and 10. *)
Theorem calculateOverallSGPA_within_0_10 :
  forall (st st' : State) (sgpa totalCreditPoints totalCredits : num),
    calculateOverallSGPA st doc =
      (st', Returns (SGPA sgpa totalCreditPoints totalCredits)) ->
    currentSubjects st <> [] ->
    Forall (fun sub => (0 < Subject.credits sub)%Q) (currentSubjects st) ->
    exists q : Q, sgpa = Fin q /\ (0 <= q <= 10)%Q.
Proof.
  intros st st' sgpa tcp tc Hcalc Hne Hcredits.
  pose proof (calculateOverallSGPA_inv _ _ _ _ _ Hcalc) as [[u Hrec] Hagg].
  destruct (recalculate_records st (currentSubjects st) st st' u eq_refl
              (incl_refl _) Hrec) as (_ & _ & _ & _ & _ & Hall & _).
  destruct (creditPoints_bounds (gradePoints st') (currentSubjects st))
    as (H0 & H10 & Hpos).
  { apply List.Forall_forall. intros sub Hin. split.
    - exact (proj1 (List.Forall_forall _ _) Hcredits sub Hin).
    - destruct (Hall sub Hin) as (x & gp & _ & _ & Hgrade & Hl).
      unfold recordedGradePoint. rewrite Hl. simpl.
      now apply gradeValues_bounds. }
  specialize (Hpos Hne).
  unfold aggregateSGPA in Hagg. change (ofZ 0) with (Fin 0) in Hagg.
  destruct (fold_addSubject (gradePoints st') (currentSubjects st) 0 0)
    as (a & b & Hfold & Ha & Hb).
  rewrite Hfold in Hagg. injection Hagg as <- _ _.
  rewrite Qplus_0_l in Ha, Hb. simpl.
  destruct (Qeq_bool b 0) eqn:E.
  - apply Qeq_bool_iff in E. lra.
  - eexists. split; [reflexivity|]. split.
    + apply Qle_shift_div_l; lra.
    + apply Qle_shift_div_r; lra.
Qed.

End OverallSgpa.

(** The example subject with its exam left blank is sent back, and the
    state is kept. *)
Lemma calculateOverallSGPA_rejects_without_recalculating_witness :
  calculateOverallSGPA exampleState
    (page [("s1-ise", "18"); ("s1-ese", ""); ("s1-highest", "")])
  = (exampleState, Returns EnterMarksCorrectly).
Proof.
  apply calculateOverallSGPA_rejects_without_recalculating.
  - repeat constructor; on_page.
  - apply Exists_cons_hd. apply Exists_cons_tl. apply Exists_cons_hd.
    left. reflexivity.
Defined.

(** The example subject with 18 and 65 entered: a grade point is recorded
    for it, and the SGPA is within 0 and 10. *)
Lemma calculateOverallSGPA_records_every_subject_witness :
  let doc := page [("s1-ise", "18"); ("s1-ese", "65"); ("s1-highest", "")] in
  exists gp : Z,
    In gp gradeValues /\
    gradePoints (calculateOverallSGPA exampleState doc).1 !! 1 = Some gp.
Proof.
  intros doc.
  assert (Hcalc : calculateOverallSGPA exampleState doc =
            (updateGradePoint 1 10 exampleState,
             Returns (SGPA (Fin (40 # 4)) 40 4)))
    by (vm_compute; reflexivity).
  destruct (calculateOverallSGPA_records_every_subject doc _ _ _ _ _ Hcalc)
    as (_ & _ & _ & _ & Hall & _).
  destruct (Hall exampleSubject) as (gp & Hgrade & Hgp & _); [now left|].
  exists gp. rewrite Hcalc. split; [exact Hgrade | exact Hgp].
Defined.

Lemma calculateOverallSGPA_within_0_10_witness :
  let doc := page [("s1-ise", "18"); ("s1-ese", "65"); ("s1-highest", "")] in
  exists q : Q,
    calculateOverallSGPA exampleState doc =
      (updateGradePoint 1 10 exampleState, Returns (SGPA (Fin q) 40 4)) /\
    (0 <= q <= 10)%Q.
Proof.
  intros doc.
  assert (Hcalc : calculateOverallSGPA exampleState doc =
            (updateGradePoint 1 10 exampleState,
             Returns (SGPA (Fin (40 # 4)) 40 4)))
    by (vm_compute; reflexivity).
  destruct (calculateOverallSGPA_within_0_10 doc _ _ _ _ _ Hcalc)
    as (q & Hq & Hrange).
  - discriminate.
  - repeat constructor.
  - exists q. rewrite Hcalc, Hq. split; [reflexivity | exact Hrange].
Defined.

(** ** The prediction and the evaluation *)

Section PredictionMet.

Local Open Scope num_scope.

Lemma append_inj_l (p a b : string) : p +:+ a = p +:+ b -> a = b.
Proof.
  induction p as [|c p IH]; simpl; [auto|]. intros [= H]. auto.
Qed.

Lemma fieldInputId_inj (subjectId : Z) (a b : string) :
  fieldInputId subjectId a = fieldInputId subjectId b -> a = b.
Proof.
  unfold fieldInputId. intros H.
  now do 3 apply append_inj_l in H.
Qed.

Lemma highestInputId_not_ese (subjectId : Z) :
  fieldInputId subjectId "ese" <> highestInputId subjectId.
Proof.
  unfold fieldInputId, highestInputId. intros H.
  do 2 apply append_inj_l in H. discriminate.
Qed.

Lemma updatePrediction_inv (st : State) (doc : Document) (subjectId : Z)
    (for10 for9 : Verdict) :
  updatePrediction st doc subjectId = Returns (Prediction for10 for9) ->
  exists (subject : Subject.t) (eseField : Field.t)
         (highestValue : string) (currentTotal : num),
    findSubject st subjectId = Some subject /\
    find isEse (Subject.fields subject) = Some eseField /\
    doc !! fieldInputId subjectId "ese" = Some "" /\
    doc !! highestInputId subjectId = Some highestValue /\
    currentTotal == currentTotalOf doc subjectId (Subject.fields subject) /\
    let highest :=
      resolveHighest highestValue (Subject.defaultHighest subject) in
    for10 = verdict (ceil (Fin (8 # 10) * highest - currentTotal))
                    (Field.max eseField) /\
    for9 = verdict (ceil (Fin (7 # 10) * highest - currentTotal))
                   (Field.max eseField).
Proof.
  unfold updatePrediction.
  destruct (findSubject st subjectId) as [subject|] eqn:Hfind; [|discriminate].
  destruct (find isEse (Subject.fields subject)) as [eseField|] eqn:Hese;
    [|discriminate].
  destruct (doc !! fieldInputId subjectId "ese") as [eseValue|] eqn:HeseValue;
    [|discriminate].
  destruct (eseValue =? "")%string eqn:Eese; [|discriminate].
  apply String.eqb_eq in Eese. subst eseValue. simpl.
  destruct (fold_addNonEse doc subjectId (Subject.fields subject) (ofZ 0) false)
    as (currentTotal & -> & Htotal).
  destruct (negb (false || existsb (enteredb doc subjectId)
                                   (Subject.fields subject)));
    [discriminate|].
  destruct (doc !! highestInputId subjectId) as [highestValue|] eqn:Hhighest;
    [|discriminate].
  intros Hresult.
  exists subject, eseField, highestValue, currentTotal.
  split; [reflexivity|]. split; [exact Hese|]. split; [reflexivity|].
  split; [reflexivity|].
  split; [rewrite Htotal; apply add_0_l|].
  cbv zeta. split; congruence.
Qed.

Lemma le_refl_ordered (a b : num) : a <= b -> a <= a.
Proof.
  destruct a as [x| | |]; try (cbv; congruence); try reflexivity.
  intros _. apply le_Fin. apply Qle_refl.
Qed.

(** The marks needed for 9 are never more than the marks needed for 10,
    unless both are the same non-number. *)
Lemma need_order (h c : num) :
  0 <= h ->
  ceil (Fin (7 # 10) * h - c) = ceil (Fin (8 # 10) * h - c) \/
  ceil (Fin (7 # 10) * h - c) <= ceil (Fin (8 # 10) * h - c).
Proof.
  intros Hh.
  destruct h as [hq| | |]; try (cbv in Hh; congruence).
  - unfold ofZ, inject_Z in Hh. apply le_Fin in Hh.
    destruct c as [t| | |]; try (left; reflexivity).
    right. simpl. unfold ofZ. apply le_Fin. rewrite <- Zle_Qle.
    apply Qceiling_resp_le. nra.
  - left. reflexivity.
Qed.

Lemma verdict_order (n9 n10 : num) (eseMax : Q) :
  n9 = n10 \/ n9 <= n10 ->
  (verdict n10 eseMax = AlreadySecured -> verdict n9 eseMax = AlreadySecured) /\
  (verdict n9 eseMax = NotPossible -> verdict n10 eseMax = NotPossible) /\
  (forall (m9 m10 : num) (a b : Q),
      verdict n9 eseMax = Need m9 a -> verdict n10 eseMax = Need m10 b ->
      m9 <= m10).
Proof.
  intros [-> | Hle].
  - repeat split; auto.
    intros m9 m10 a b H9 H10. rewrite H9 in H10. injection H10 as <- _.
    unfold verdict in H9. destruct (n10 <=? Fin eseMax) eqn:E; [|discriminate].
    destruct (n10 <=? 0); [discriminate|]. injection H9 as <- _.
    now apply (le_refl_ordered _ (Fin eseMax)).
  - unfold verdict. repeat split.
    + destruct (n10 <=? Fin eseMax) eqn:Emax; [|discriminate].
      destruct (n10 <=? 0) eqn:E0; [|discriminate]. intros _.
      rewrite (le_trans _ _ _ Hle Emax), (le_trans _ _ _ Hle E0). reflexivity.
    + destruct (n9 <=? Fin eseMax) eqn:E9.
      * destruct (n9 <=? 0); discriminate.
      * intros _. destruct (n10 <=? Fin eseMax) eqn:E10; [|reflexivity].
        rewrite (le_trans _ _ _ Hle E10) in E9. discriminate.
    + intros m9 m10 a b.
      destruct (n9 <=? Fin eseMax); [|discriminate].
      destruct (n9 <=? 0); [discriminate|]. intros [= <- _].
      destruct (n10 <=? Fin eseMax); [|discriminate].
      destruct (n10 <=? 0); [discriminate|]. intros [= <- _]. exact Hle.
Qed.

(** X8. With a denominator that is not negative, the two verdicts of a
    prediction are consistent: when 10 is already secured so is 9, when 9
    is not possible neither is 10, and when marks are asked for both, the
    marks for 9 are at most the marks for 10. *)
Theorem updatePrediction_verdicts_ordered :
  forall (st : State) (doc : Document) (subjectId : Z) (subject : Subject.t)
         (highestValue : string) (for10 for9 : Verdict),
    updatePrediction st doc subjectId = Returns (Prediction for10 for9) ->
    findSubject st subjectId = Some subject ->
    doc !! highestInputId subjectId = Some highestValue ->
    0 <= resolveHighest highestValue (Subject.defaultHighest subject) ->
    (for10 = AlreadySecured -> for9 = AlreadySecured) /\
    (for9 = NotPossible -> for10 = NotPossible) /\
    (forall (m9 m10 : num) (a b : Q),
        for9 = Need m9 a -> for10 = Need m10 b -> m9 <= m10).
Proof.
  intros st doc subjectId subject highestValue for10 for9 Hpred Hfind Hhv Hh.
  apply updatePrediction_inv in Hpred
    as (subject' & eseField & hv & c & Hfind' & _ & _ & Hhv' & _ & H10 & H9).
  rewrite Hfind in Hfind'. injection Hfind' as <-.
  rewrite Hhv in Hhv'. injection Hhv' as <-.
  rewrite H10, H9. apply verdict_order. now apply need_order.
Qed.

End PredictionMet.

(** 15 of 20 entered, no override: 55 marks for 9 and 65 for 10. *)
Lemma updatePrediction_verdicts_ordered_witness :
  updatePrediction exampleState
    (page [("s1-ise", "15"); ("s1-ese", ""); ("s1-highest", "")]) 1 =
    Returns (Prediction (Need 65 80) (Need 55 80)) /\
  (ofZ 55 <= ofZ 65)%num.
Proof.
  assert (Hpred : updatePrediction exampleState
            (page [("s1-ise", "15"); ("s1-ese", ""); ("s1-highest", "")]) 1 =
            Returns (Prediction (Need 65 80) (Need 55 80)))
    by (vm_compute; reflexivity).
  split; [exact Hpred|].
  destruct (updatePrediction_verdicts_ordered _ _ _ exampleSubject "" _ _ Hpred)
    as (_ & _ & Horder).
  - reflexivity.
  - reflexivity.
  - reflexivity.
  - exact (Horder 55%num 65%num 80%Q 80%Q eq_refl eq_refl).
Defined.

Section PredictionKept.

Local Open Scope num_scope.

Variable doc : Document.
Variable subjectId : Z.

(** The page after the user has typed [v] into the exam input. *)
Let typed (v : string) : Document := <[fieldInputId subjectId "ese" := v]> doc.

Lemma typed_other (v : string) (field : Field.t) :
  Field.name field <> "ese" ->
  typed v !! fieldInputId subjectId (Field.name field)
  = doc !! fieldInputId subjectId (Field.name field).
Proof.
  intros Hne. apply lookup_insert_ne. intros H.
  apply fieldInputId_inj in H. congruence.
Qed.

Lemma typed_ese (v : string) (field : Field.t) :
  Field.name field = "ese" ->
  typed v !! fieldInputId subjectId (Field.name field) = Some v.
Proof. intros ->. apply lookup_insert_eq. Qed.

Lemma typed_highest (v : string) :
  typed v !! highestInputId subjectId = doc !! highestInputId subjectId.
Proof. apply lookup_insert_ne, highestInputId_not_ese. Qed.

Lemma validEntry_Fin (d : Document) (field : Field.t) :
  validEntry d subjectId field ->
  exists q : Q, entered d subjectId field = Fin q /\ (0 <= q)%Q.
Proof.
  intros (_ & _ & _ & H0 & Hmax).
  destruct (between_Fin _ _ _ H0 Hmax) as (q & Hq & Hq0 & _).
  exists q. split; [exact Hq|]. exact Hq0.
Qed.

Lemma validEntry_typed (v : string) (field : Field.t) :
  (Field.name field <> "ese" -> validEntry doc subjectId field) ->
  0 <= parseFloat v ->
  (Field.name field = "ese" -> parseFloat v <= Fin (Field.max field)) ->
  validEntry (typed v) subjectId field.
Proof.
  intros Hother H0 Hmax.
  destruct (String.eqb_spec (Field.name field) "ese") as [Hese | Hne].
  - unfold validEntry, present, entered, enteredText.
    rewrite (typed_ese v field Hese). simpl.
    assert (Hnum : isNaN (parseFloat v) = false)
      by (destruct (parseFloat v); try reflexivity; discriminate H0).
    repeat split; auto.
    intros ->. discriminate Hnum.
  - specialize (Hother Hne).
    unfold validEntry, present, entered, enteredText in *.
    now rewrite (typed_other v field Hne).
Qed.

(** The total the evaluator reaches on the typed page is at least the
    predictor's current total plus the marks typed for the exam. *)
Lemma totals_compared (v : string) (e : Q) (fields : list Field.t) :
  parseFloat v = Fin e -> (0 <= e)%Q ->
  Forall (validEntry (typed v) subjectId) fields ->
  Forall (fun f => Field.name f <> "ese" -> validEntry doc subjectId f) fields ->
  exists T t : Q,
    sumNum (map (entered (typed v) subjectId) fields) = Fin T /\
    currentTotalOf doc subjectId fields = Fin t /\
    (0 <= t)%Q /\ (t <= T)%Q /\
    (existsb isEse fields = true -> (t + e <= T)%Q).
Proof.
  intros He He0 Hvalid Hother. unfold currentTotalOf, nonFinal.
  induction Hvalid as [|field rest Hf _ IH]; simpl.
  - exists 0%Q, 0%Q. repeat split; try reflexivity; try lra; discriminate.
  - apply Forall_cons in Hother as [Hfo Hro].
    destruct (IH Hro) as (T & t & HT & Ht & Ht0 & HtT & Hese).
    destruct (validEntry_Fin _ _ Hf) as (q & Hq & Hq0).
    rewrite Hq, HT. destruct (isEse field) eqn:Eese; simpl.
    + assert (Hname : Field.name field = "ese") by now apply String.eqb_eq.
      assert (q = e).
      { unfold entered, enteredText in Hq.
        rewrite (typed_ese v field Hname) in Hq. simpl in Hq. congruence. }
      subst q. exists (e + T)%Q, t. rewrite Ht.
      repeat split; try reflexivity; lra.
    + assert (Hname : Field.name field <> "ese") by now apply String.eqb_neq.
      assert (Hsame : numericEntry doc subjectId field = Fin q).
      { unfold numericEntry, entered, enteredText in *.
        rewrite (typed_other v field Hname) in Hq. now rewrite Hq. }
      rewrite Hsame, Ht. exists (q + T)%Q, (q + t)%Q.
      repeat split; try reflexivity; try lra.
      intros Hex. specialize (Hese Hex). lra.
Qed.

Lemma getGradePoint_at_least (p : Q) :
  ((80 <= p)%Q -> getGradePoint (Fin p) = 10%Z) /\
  ((70 <= p)%Q -> (9 <= getGradePoint (Fin p))%Z).
Proof.
  unfold getGradePoint, geb, ofZ, inject_Z.
  destruct (Fin (80 # 1) <=? Fin p) eqn:E80.
  - split; intros _; [reflexivity | lia].
  - apply leb_Fin_false in E80.
    destruct (Fin (70 # 1) <=? Fin p) eqn:E70.
    + split; [intros H; lra | intros _; lia].
    + apply leb_Fin_false in E70. split; intros H; lra.
Qed.

(** A verdict secured by [e] marks bounds the score still missing. *)
Lemma secures_bound (x e : Q) (eseMax : Q) :
  (0 <= e)%Q ->
  secures (verdict (ceil (Fin x)) eseMax) (Fin e) ->
  (x <= e)%Q.
Proof.
  intros He0. unfold verdict, secures. simpl ceil.
  pose proof (Qle_ceiling x) as Hceil.
  destruct (ofZ (Qceiling x) <=? Fin eseMax); [|contradiction].
  destruct (ofZ (Qceiling x) <=? 0) eqn:E0.
  - intros _. unfold ofZ in E0. apply leb_Fin in E0.
    unfold inject_Z in *. lra.
  - unfold ofZ. rewrite le_Fin. lra.
Qed.


End PredictionKept.


(** ** The printed reports *)

Section PrintedSgpa.

Local Open Scope num_scope.

Variable doc : Document.

Lemma fold_printSubject (gps : gmap Z Z) (subjects : list Subject.t)
    (tcp tc : num) (rows : list PrintRow.t) :
  fold_left (printSubject gps doc) subjects (tcp, tc, rows) =
    (fold_left (addSubject gps) subjects (tcp, tc),
     rows ++ map (printRow gps doc) subjects).
Proof.
  revert tcp tc rows.
  induction subjects as [|s rest IH]; intros tcp tc rows; simpl.
  - now rewrite app_nil_r.
  - rewrite IH. now rewrite <- app_assoc.
Qed.

(** X10. The printed report carries the SGPA of the screen: after
    calculateOverallSGPA has returned an SGPA, printResult prints one row
    per subject, the same total credit points and total credits, and the
    same SGPA whenever the total credits are positive; when they are not
    it prints 0. *)
Theorem printResult_after_calculateOverallSGPA :
  forall (st st' : State) (sgpa totalCreditPoints totalCredits : num),
    calculateOverallSGPA st doc =
      (st', Returns (SGPA sgpa totalCreditPoints totalCredits)) ->
    let report := printResult st' doc in
    length (printRows report) = length (currentSubjects st) /\
    printTotalCreditPoints report = totalCreditPoints /\
    printTotalCredits report = totalCredits /\
    printSgpa report = if totalCredits >? 0 then sgpa else ofZ 0.
Proof.
  intros st st' sgpa tcp tc Hcalc report. subst report.
  pose proof (calculateOverallSGPA_inv _ _ _ _ _ _ Hcalc) as [[u Hrec] Hagg].
  destruct (recalculate_records doc st (currentSubjects st) st st' u eq_refl
              (incl_refl _) Hrec) as (Hcs & _).
  unfold printResult. rewrite Hcs, fold_printSubject.
  unfold aggregateSGPA in Hagg.
  destruct (fold_left (addSubject (gradePoints st')) (currentSubjects st)
                      (ofZ 0, ofZ 0)) as [a b].
  injection Hagg as <- <- <-. simpl. rewrite length_map. auto.
Qed.

Lemma not_lt_le (a b : num) :
  isNaN a = false -> isNaN b = false -> (a <? b) = false -> b <= a.
Proof.
  destruct a as [x| | |], b as [y| | |]; try (cbv; congruence).
  intros _ _ H. apply le_Fin. now apply ltb_Fin_false.
Qed.

Lemma sumFields_total (subjectId : Z) (fields : list Field.t) (t0 total : num) :
  sumFields doc subjectId fields t0 = Returns (Some total) ->
  Forall (validEntry doc subjectId) fields.
Proof.
  revert t0. induction fields as [|field rest IH]; intros t0; simpl;
    [constructor|].
  destruct (doc !! fieldInputId subjectId (Field.name field)) as [value|]
    eqn:Hv; [|discriminate].
  destruct ((value =? "")%string || isNaN (parseFloat value)) eqn:E1;
    [discriminate|].
  destruct ((parseFloat value <? 0) || (parseFloat value >? Fin (Field.max field)))
    eqn:E2; [discriminate|].
  apply orb_false_elim in E1 as [E1 E1'], E2 as [E2 E2'].
  intros Hrest. constructor; [|eapply IH; exact Hrest].
  unfold validEntry, present, entered, enteredText. rewrite Hv. simpl.
  apply String.eqb_neq in E1.
  unfold gtb in E2'. repeat split; auto; now apply not_lt_le.
Qed.

Lemma orZero_valid (a : num) : isNaN a = false -> orZero a == a.
Proof.
  unfold orZero. intros ->. simpl.
  destruct (a =? 0) eqn:E; [|reflexivity].
  destruct a as [q| | |]; try discriminate E.
  apply eqb_Fin in E. simpl. now rewrite E.
Qed.

Lemma printTotalMarks_valid (subject : Subject.t) :
  Forall (validEntry doc (Subject.id subject)) (Subject.fields subject) ->
  printTotalMarks doc subject ==
    sumNum (map (entered doc (Subject.id subject)) (Subject.fields subject)).
Proof.
  unfold printTotalMarks. intros Hvalid.
  assert (Hfold : forall acc acc' : num,
             acc == acc' ->
             fold_left
               (fun totalMarks field =>
                  totalMarks
                  + orZero (parseFloat
                      match doc !! fieldInputId (Subject.id subject)
                                                (Field.name field) with
                      | Some value => value
                      | None => ""
                      end))
               (Subject.fields subject) acc
             == acc' + sumNum (map (entered doc (Subject.id subject))
                                   (Subject.fields subject))).
  { induction Hvalid as [|field rest Hf _ IH]; intros acc acc' Hacc; simpl.
    - rewrite Hacc. symmetry. apply add_0_r.
    - rewrite (IH _ (acc' + entered doc (Subject.id subject) field)).
      + apply add_assoc.
      + apply add_proper; [exact Hacc|].
        destruct Hf as (_ & _ & Hnum & _). now apply orZero_valid. }
  rewrite (Hfold _ (ofZ 0)); [apply add_0_l | reflexivity].
Qed.


End PrintedSgpa.

(** The example subject evaluated and printed. *)
Lemma printResult_after_calculateOverallSGPA_witness :
  let doc := page [("s1-ise", "18"); ("s1-ese", "65"); ("s1-highest", "")] in
  printSgpa (printResult (updateGradePoint 1 10 exampleState) doc)
  = Fin (40 # 4).
Proof.
  intros doc.
  assert (Hcalc : calculateOverallSGPA exampleState doc =
            (updateGradePoint 1 10 exampleState,
             Returns (SGPA (Fin (40 # 4)) 40 4)))
    by (vm_compute; reflexivity).
  destruct (printResult_after_calculateOverallSGPA doc _ _ _ _ _ Hcalc)
    as (_ & _ & _ & Hsgpa).
  exact Hsgpa.
Defined.


Section PrintedCgpa.

Local Open Scope num_scope.

Variable doc : Document.

Lemma printSemesters_cons (sem : Z) (rest : list Z) (tcp tc : num) (n : nat)
    (rows : list (Z * num)) :
  printSemesters doc (sem :: rest) tcp tc n rows =
    match semesterRow doc sem with
    | Some r =>
        if passesFilter r then
          printSemesters doc rest (tcp + rowPoints r) (tc + Row.credits r)
                         (S n) (rows ++ [(sem, Row.sgpa r)])
        else printSemesters doc rest tcp tc n rows
    | None => printSemesters doc rest tcp tc n rows
    end.
Proof.
  simpl. unfold semesterRow.
  destruct (doc !! sgpaInputId sem) as [sgpaText|];
    [destruct (doc !! creditsInputId sem) as [creditsText|]|];
    try reflexivity.
  rewrite rowEntered_passesFilter. reflexivity.
Qed.

Lemma printSemesters_filtered (sems : list Z) (tcp tc : num) (n : nat)
    (rows : list (Z * num)) :
  printSemesters doc sems tcp tc n rows =
    (fold_left add (map rowPoints (filteredRows doc sems)) tcp,
     fold_left add (map Row.credits (filteredRows doc sems)) tc,
     (n + length (filteredRows doc sems))%nat,
     rows ++ map printedRow (filteredRows doc sems)).
Proof.
  revert tcp tc n rows.
  induction sems as [|sem rest IH]; intros tcp tc n rows.
  - simpl. now rewrite Nat.add_0_r, app_nil_r.
  - rewrite printSemesters_cons. unfold filteredRows in *.
    rewrite rowsOf_cons.
    destruct (semesterRow doc sem) as [r|] eqn:Hrow; [|apply IH].
    cbn [List.filter]. destruct (passesFilter r); [|apply IH].
    rewrite IH. cbn [map fold_left length].
    rewrite Nat.add_succ_r, <- app_assoc. simpl app.
    unfold printedRow at 2. now rewrite (semesterRow_sem _ _ _ Hrow).
Qed.

Lemma printOverallResult_filtered :
  printOverallResult doc =
    match filteredRows doc semesters with
    | [] => CalculateFirst
    | rows =>
        PrintedCGPA (map printedRow rows)
          (fold_left add (map rowPoints rows) (ofZ 0)
           / fold_left add (map Row.credits rows) (ofZ 0))
    end.
Proof.
  unfold printOverallResult. rewrite printSemesters_filtered.
  destruct (filteredRows doc semesters); reflexivity.
Qed.

(** X12. printOverallResult never fails on a missing input and has no
    upper bound on the sgpa: it asks to calculate first exactly when no
    semester row has sgpa > 0 and credits > 0, and otherwise prints every
    such row with Σ(sgpa·credits) / Σ(credits) over them. *)
Theorem printOverallResult_prints_filtered_rows :
  let rows := filteredRows doc semesters in
  (rows = [] <-> printOverallResult doc = CalculateFirst) /\
  (rows <> [] ->
   exists cgpa : num,
     printOverallResult doc = PrintedCGPA (map printedRow rows) cgpa /\
     cgpa == sumNum (map rowPoints rows) / sumNum (map Row.credits rows)).
Proof.
  intros rows. rewrite printOverallResult_filtered. fold rows.
  split.
  - destruct rows; split; intros H; try reflexivity; discriminate.
  - intros Hne. destruct rows as [|r rows'] eqn:Hrows; [contradiction|].
    rewrite <- Hrows. eexists. split; [reflexivity|].
    apply div_proper; rewrite fold_left_add; apply add_0_l.
Qed.

(** X13. The report and the screen: when calculateCGPA shows a CGPA,
    printOverallResult prints the same CGPA over as many rows; when
    calculateCGPA rejects a semester for an sgpa above 10, the report is
    printed all the same and has a row for that semester. *)
Theorem printOverallResult_and_calculateCGPA :
  (forall (cgpa totalCreditPoints totalCredits : num) (n : nat),
      calculateCGPA doc = Returns (CGPA cgpa totalCreditPoints totalCredits n) ->
      exists rows : list (Z * num),
        printOverallResult doc = PrintedCGPA rows cgpa /\ length rows = n) /\
  (forall sem : Z,
      calculateCGPA doc = Returns (SGPAOutOfRange sem) ->
      exists (rows : list (Z * num)) (cgpa sgpa : num),
        printOverallResult doc = PrintedCGPA rows cgpa /\
        In (sem, sgpa) rows /\ 10 < sgpa).
Proof.
  rewrite calculateCGPA_filtered, printOverallResult_filtered. cbv zeta.
  split.
  - intros cgpa tcp tc n.
    destruct (find exceedsTen (filteredRows doc semesters)); [discriminate|].
    destruct (filteredRows doc semesters) as [|r rows] eqn:Hrows;
      [discriminate|].
    destruct (renderSemesters doc semesters); [|discriminate].
    intros [= <- _ _ <-]. eexists. split; [reflexivity|].
    now rewrite length_map.
  - intros sem.
    destruct (find exceedsTen (filteredRows doc semesters)) as [r|] eqn:Hfind.
    + intros [= <-]. apply find_some in Hfind as [Hin Hten].
      destruct (filteredRows doc semesters) as [|r0 rows] eqn:Hrows;
        [contradiction|].
      do 2 eexists. exists (Row.sgpa r). split; [reflexivity|].
      split; [|exact Hten].
      change (Row.sem r, Row.sgpa r) with (printedRow r).
      now apply in_map.
    + destruct (filteredRows doc semesters); [discriminate|].
      destruct (renderSemesters doc semesters); discriminate.
Qed.

End PrintedCgpa.

(** A form with sgpa 10.5 in semester 1: the screen rejects it, the
    report prints it. *)
Lemma printOverallResult_prints_filtered_rows_witness :
  let doc := cgpaForm [("10.5", "20"); ("9", "20")] in
  exists cgpa : num,
    printOverallResult doc =
      PrintedCGPA (map printedRow (filteredRows doc semesters)) cgpa /\
    (cgpa == Fin (39 # 4))%num.
Proof.
  intros doc.
  destruct (proj2 (printOverallResult_prints_filtered_rows doc))
    as (cgpa & Hprint & Hcgpa).
  - vm_compute; discriminate.
  - exists cgpa. split; [exact Hprint|].
    etransitivity; [exact Hcgpa|]. vm_compute; reflexivity.
Defined.

Lemma printOverallResult_and_calculateCGPA_witness :
  let doc := cgpaForm [("10.5", "20"); ("9", "20")] in
  exists (rows : list (Z * num)) (cgpa sgpa : num),
    printOverallResult doc = PrintedCGPA rows cgpa /\
    In (1, sgpa) rows /\ (10 < sgpa)%num.
Proof.
  intros doc.
  apply (proj2 (printOverallResult_and_calculateCGPA doc) 1).
  vm_compute; reflexivity.
Defined.

(** ** [getSubjects] *)

Section SubjectLookup.

Variable data : Catalog.

Lemma includes_In (array : list string) (branchId : string) :
  includes array branchId = true <-> In branchId array.
Proof.
  unfold includes. rewrite existsb_exists. split.
  - intros (x & Hin & Heq). apply String.eqb_eq in Heq. now subst.
  - intros Hin. exists branchId. split; [exact Hin | apply String.eqb_refl].
Qed.

(** X14. getSubjects has data for four (batch, semester) pairs only:
    whenever it returns a subject list, the batch is 2025-2029 and the
    semester 1 or 2, or the batch is 2024-2028 and the semester 3 or 4;
    for every other batch or semester it returns null. *)
Theorem getSubjects_covered_semesters :
  forall (branchId batchId : string) (semesterId : Z) (subjects : list Subject.t),
    getSubjects data branchId semesterId batchId = Some subjects ->
    (batchId = "2025-2029" /\ (semesterId = 1 \/ semesterId = 2)) \/
    (batchId = "2024-2028" /\ (semesterId = 3 \/ semesterId = 4)).
Proof.
  intros branchId batchId semesterId subjects. unfold getSubjects.
  destruct (String.eqb_spec batchId "2025-2029") as [-> | H25].
  - destruct (Z.eqb_spec semesterId 1) as [-> | H1]; [auto|].
    destruct (Z.eqb_spec semesterId 2) as [-> | H2]; [auto|].
    simpl. discriminate.
  - destruct (String.eqb_spec batchId "2024-2028") as [-> | H24];
      [|discriminate].
    destruct (Z.eqb_spec semesterId 3) as [-> | H3]; [auto|].
    destruct (Z.eqb_spec semesterId 4) as [-> | H4]; [auto|].
    discriminate.
Qed.

(** X15. In batch 2025-2029 the semester-1 list is returned for every
    branch id, known or not, while the semester-2 list is returned exactly
    for the ten branches of the three groups, and always starts with the
    common subjects of semester 2. *)
Theorem getSubjects_batch_2025 :
  forall branchId : string,
    getSubjects data branchId 1 "2025-2029" = Some (semester1Subjects data) /\
    (In branchId (computerAlliedBranches ++ electronicsAlliedBranches
                  ++ mechRAIBranches) <->
     is_Some (getSubjects data branchId 2 "2025-2029")) /\
    (forall subjects : list Subject.t,
        getSubjects data branchId 2 "2025-2029" = Some subjects ->
        exists group : list Subject.t,
          subjects = semester2CommonSubjects data ++ group).
Proof.
  intros branchId. split; [reflexivity|].
  rewrite !in_app_iff, <- !includes_In. unfold getSubjects.
  rewrite String.eqb_refl. change (2 =? 1) with false.
  change (2 =? 2) with true. cbv iota zeta.
  destruct (includes computerAlliedBranches branchId);
    [split; [split; eauto | intros subjects [= <-]; eauto]|].
  destruct (includes electronicsAlliedBranches branchId);
    [split; [split; eauto | intros subjects [= <-]; eauto]|].
  destruct (includes mechRAIBranches branchId);
    [split; [split; eauto | intros subjects [= <-]; eauto]|].
  split; [|discriminate].
  split; [intros [H | [H | H]]; discriminate | intros [x H]; discriminate].
Qed.

End SubjectLookup.

(** An unknown branch id in semester 1 of batch 2025-2029. *)
Lemma getSubjects_covered_semesters_witness :
  let data := mkCatalog [exampleSubject] [] exampleSubject exampleSubject []
                        [] [] [] [] [] [] [] [] [] in
  getSubjects data "xyz" 1 "2025-2029" = Some [exampleSubject] /\
  (("2025-2029" = "2025-2029" /\ (1 = 1 \/ 1 = 2)) \/
   ("2025-2029" = "2024-2028" /\ (1 = 3 \/ 1 = 4))).
Proof.
  intros data. split; [reflexivity|].
  apply (getSubjects_covered_semesters data "xyz" "2025-2029" 1 [exampleSubject]).
  reflexivity.
Defined.

(** The semester-2 list of a branch of the electronics group. *)
Lemma getSubjects_batch_2025_witness :
  let data := mkCatalog [] [exampleSubject] exampleSubject exampleSubject []
                        [] [] [] [] [] [] [] [] [] in
  exists group : list Subject.t,
    [exampleSubject; exampleSubject] = semester2CommonSubjects data ++ group.
Proof.
  intros data.
  destruct (getSubjects_batch_2025 data "vlsi") as (_ & _ & Hprefix).
  apply Hprefix. reflexivity.
Defined.

(** ** The subject cards and the calculator *)

Section Cards.

Local Open Scope num_scope.

Variable electiveOffered : Subject.t -> bool.
Variable doc : Document.

Lemma hasCards_inputs (subjects : list Subject.t) (sub : Subject.t) :
  hasCards electiveOffered subjects doc ->
  In sub subjects ->
  Forall (present doc (Subject.id sub)) (Subject.fields sub) /\
  is_Some (doc !! highestInputId (Subject.id sub)).
Proof.
  unfold hasCards, createSubjectCards. rewrite List.Forall_flat_map.
  intros Hall Hin.
  pose proof (proj1 (List.Forall_forall _ _) Hall sub Hin) as Hcard.
  unfold createOneSubjectCard in Hcard.
  apply List.Forall_app in Hcard as [_ Hcard].
  apply List.Forall_app in Hcard as [Hfields Hhighest].
  split.
  - apply List.Forall_forall. intros field Hfield.
    apply (proj1 (List.Forall_forall _ _) Hfields
             (fieldInputId (Subject.id sub) (Field.name field), "")).
    apply in_map_iff. now exists field.
  - now apply List.Forall_inv in Hhighest.
Qed.

Lemma findSubject_In (st : State) (subjectId : Z) (subject : Subject.t) :
  findSubject st subjectId = Some subject ->
  In subject (currentSubjects st) /\ Subject.id subject = subjectId.
Proof.
  unfold findSubject. intros H. apply find_some in H as [Hin Hid].
  split; [exact Hin | now apply Z.eqb_eq].
Qed.

Lemma resultOf_with_cards (st : State) (subjectId : Z) :
  hasCards electiveOffered (currentSubjects st) doc ->
  resultOf st doc subjectId <> TypeError.
Proof.
  intros Hcards. unfold resultOf, calculateSubject.
  destruct (findSubject st subjectId) as [subject|] eqn:Hfind; [|discriminate].
  apply findSubject_In in Hfind as [Hin <-].
  destruct (hasCards_inputs _ _ Hcards Hin) as [Hfields [hv Hhv]].
  destruct (sumFields_present doc _ _ (ofZ 0) Hfields) as [[total|] ->];
    [|discriminate].
  rewrite Hhv.
  destruct (resolveHighest hv (Subject.defaultHighest subject)
            >? Fin (Subject.defaultHighest subject)); discriminate.
Qed.

Lemma recalculate_with_cards (st : State) (l : list Subject.t) :
  (forall subjectId, resultOf st doc subjectId <> TypeError) ->
  forall st0 : State,
    currentSubjects st0 = currentSubjects st ->
    (recalculate st0 doc l).2 <> TypeError.
Proof.
  intros Hres. induction l as [|sub rest IH]; intros st0 Hcs; simpl;
    [discriminate|].
  rewrite (resultOf_shape doc st st0 _ Hcs).
  destruct (resultOf st doc (Subject.id sub)) as [x|] eqn:Hx.
  - apply IH. now rewrite afterResult_currentSubjects.
  - now apply Hres in Hx.
Qed.

(** X16. On a page that has the cards createSubjectCards builds for the
    current subjects, whatever their inputs hold, no calculation reads a
    missing input: calculateSubject and updatePrediction for any subject
    id and calculateOverallSGPA end without a TypeError. *)
Theorem calculators_find_their_inputs :
  forall st : State,
    hasCards electiveOffered (currentSubjects st) doc ->
    (forall subjectId : Z,
        (calculateSubject st doc subjectId).2 <> TypeError /\
        updatePrediction st doc subjectId <> TypeError) /\
    (calculateOverallSGPA st doc).2 <> TypeError.
Proof.
  intros st Hcards. split.
  - intros subjectId. split; [now apply resultOf_with_cards|].
    unfold updatePrediction.
    destruct (findSubject st subjectId) as [subject|] eqn:Hfind;
      [|discriminate].
    apply findSubject_In in Hfind as [Hin <-].
    destruct (hasCards_inputs _ _ Hcards Hin) as [Hfields [hv Hhv]].
    destruct (find isEse (Subject.fields subject)) as [eseField|] eqn:Hese;
      [|discriminate].
    apply find_isEse_some in Hese as [HeseIn HeseName].
    pose proof (proj1 (List.Forall_forall _ _) Hfields eseField HeseIn)
      as [eseValue HeseValue].
    rewrite HeseName in HeseValue. rewrite HeseValue.
    destruct (negb (eseValue =? "")%string); [discriminate|].
    destruct (fold_left (addNonEse doc (Subject.id subject))
                        (Subject.fields subject) (ofZ 0, false)) as [t any].
    destruct (negb any); [discriminate|]. rewrite Hhv. discriminate.
  - unfold calculateOverallSGPA.
    rewrite subjectsValid_present.
    2:{ apply List.Forall_forall. intros sub Hin.
        now apply (hasCards_inputs _ _ Hcards Hin). }
    simpl. destruct (forallb (fieldsAccepted doc) (currentSubjects st));
      [|discriminate].
    pose proof (recalculate_with_cards st (currentSubjects st)
                  (fun sid => resultOf_with_cards st sid Hcards) st eq_refl)
      as Hrec.
    destruct (recalculate st doc (currentSubjects st)) as [st1 [u|]];
      [discriminate | now contradiction Hrec].
Qed.

End Cards.

(** The fresh page of the example subject. *)
Lemma calculators_find_their_inputs_witness :
  let doc := page (createSubjectCards (fun _ => false) [exampleSubject]) in
  (calculateSubject exampleState doc 1).2 <> TypeError.
Proof.
  intros doc.
  assert (Hcards : hasCards (fun _ => false) (currentSubjects exampleState) doc).
  { repeat constructor; vm_compute; eexists; reflexivity. }
  destruct (calculators_find_their_inputs (fun _ => false) doc exampleState
              Hcards) as [Hall _].
  exact (proj1 (Hall 1)).
Defined.

(** ** [changeSelection] *)

Section ChangeSelection.

Local Open Scope num_scope.

Lemma blank_insert (doc : Document) (id k : string) :
  blank doc k -> blank (<[id := ""]> doc) k.
Proof.
  intros Hk. unfold blank. destruct (decide (id = k)) as [-> | Hne].
  - right. apply lookup_insert_eq.
  - now rewrite lookup_insert_ne.
Qed.

Lemma blank_insert_self (doc : Document) (id : string) :
  blank (<[id := ""]> doc) id.
Proof. right. apply lookup_insert_eq. Qed.

Lemma clearSemester_keeps (doc : Document) (sem : Z) (k : string) :
  blank doc k -> blank (clearSemester doc sem) k.
Proof.
  intros Hk. unfold clearSemester.
  destruct (doc !! sgpaInputId sem);
    match goal with
    | |- context [match ?d !! creditsInputId sem with _ => _ end] =>
        destruct (d !! creditsInputId sem)
    end; auto using blank_insert.
Qed.

Lemma clearSemester_sgpa (doc : Document) (sem : Z) :
  blank (clearSemester doc sem) (sgpaInputId sem).
Proof.
  unfold clearSemester.
  destruct (doc !! sgpaInputId sem) eqn:Hs.
  - destruct (<[sgpaInputId sem := ""]> doc !! creditsInputId sem);
      auto using blank_insert, blank_insert_self.
  - destruct (doc !! creditsInputId sem);
      [apply blank_insert|]; now left.
Qed.

Lemma fold_clearSemester_keeps (sems : list Z) (doc : Document) (k : string) :
  blank doc k -> blank (fold_left clearSemester sems doc) k.
Proof.
  revert doc. induction sems as [|sem rest IH]; intros doc Hk; simpl;
    [exact Hk|]. apply IH. now apply clearSemester_keeps.
Qed.

Lemma fold_clearSemester_sgpa (sems : list Z) (doc : Document) (sem : Z) :
  In sem sems -> blank (fold_left clearSemester sems doc) (sgpaInputId sem).
Proof.
  revert doc. induction sems as [|s rest IH]; intros doc; simpl; [tauto|].
  intros [-> | Hin].
  - apply fold_clearSemester_keeps, clearSemester_sgpa.
  - now apply IH.
Qed.

Lemma filteredRows_blank (doc : Document) (sems : list Z) :
  (forall sem, In sem sems -> blank doc (sgpaInputId sem)) ->
  filteredRows doc sems = [].
Proof.
  induction sems as [|sem rest IH]; intros Hblank; [reflexivity|].
  unfold filteredRows in *. rewrite rowsOf_cons.
  assert (Hrest : List.filter passesFilter (rowsOf doc rest) = [])
    by (apply IH; intros s Hs; apply Hblank; now right).
  unfold semesterRow.
  destruct (Hblank sem (or_introl eq_refl)) as [-> | ->]; [exact Hrest|].
  destruct (doc !! creditsInputId sem); [|exact Hrest].
  cbn [List.filter]. unfold passesFilter at 1. simpl. exact Hrest.
Qed.

(** X17. After changeSelection, however it ends, the state is the initial
    one, no subject is found any more, and every semester row of the CGPA
    form is blank: calculateCGPA asks for the data of at least one
    semester and printOverallResult asks to calculate first. *)
Theorem changeSelection_resets :
  forall (electiveOffered : Subject.t -> bool) (st : State) (doc : Document),
    let st' := (changeSelection electiveOffered st doc).1.1 in
    let doc' := (changeSelection electiveOffered st doc).1.2 in
    st' = resetState /\
    (forall subjectId : Z,
        calculateSubject st' doc' subjectId = (st', Returns NoSubject)) /\
    calculateCGPA doc' = Returns NoValidSemesters /\
    printOverallResult doc' = CalculateFirst.
Proof.
  intros electiveOffered st doc st' doc'.
  assert (Hst : st' = resetState).
  { subst st'. unfold changeSelection.
    repeat match goal with
    | |- context [match ?d !! ?k with _ => _ end] => destruct (d !! k)
    end; reflexivity. }
  assert (Hrows : filteredRows doc' semesters = []).
  { apply filteredRows_blank. intros sem Hin. subst doc'.
    pose proof (fold_clearSemester_sgpa semesters
                  (removeSubjectCards electiveOffered (currentSubjects st) doc)
                  sem Hin) as Hblank.
    unfold changeSelection.
    repeat match goal with
    | |- context [match ?d !! ?k with _ => _ end] => destruct (d !! k)
    end; cbn [fst snd]; auto using blank_insert. }
  split; [exact Hst|]. split; [|split].
  - intros subjectId. rewrite Hst. unfold calculateSubject. reflexivity.
  - rewrite calculateCGPA_filtered. cbv zeta. now rewrite Hrows.
  - rewrite printOverallResult_filtered. now rewrite Hrows.
Qed.

End ChangeSelection.
